(** * merfish/to_zarr.py: assembling and persisting a spatial dataset

    A shallow embedding of the conversion script [merfish/to_zarr.py].
    The script is straight-line Python that mutates [AnnData] objects
    through references, so it is embedded in a state-and-exception monad
    over a store of objects, a file system and the standard output.

    The readers of the input files ([sc.read_h5ad], [imageio.imread],
    [json.load]) hand the script parsed values; these are the fields of
    [inputs].  The search for the working directory (lines 13-17) is left
    out: [base] is the directory it ends with.  The functions of the [spatialdata] package that the script
    calls are not part of the script; they are modelled from the
    specification and marked as such, except for the store writer, which is
    a parameter of the persisting step. *)

From Stdlib Require Import QArith Qcanon.
From stdpp Require Import base numbers gmap strings list fin_maps.

Open Scope Qc_scope.

(** ** Values *)

(** Exceptions the script can end with. *)
Inductive error :=
  | KeyError (k : string)
  | ValueError
  | AttributeError
  | ReferenceError
  | ValidationError
  | ParseError
  | ConsistencyError
  | FileNotFoundError
  | NotADirectoryError
  | IOError.

Inductive result (A : Type) :=
  | Ok (a : A)
  | Err (e : error).
Arguments Ok {A} a.
Arguments Err {A} e.

(** Entries of a column or of an array: numbers, integers, strings. *)
Inductive scalar :=
  | SNum (q : Qc)
  | SInt (z : Z)
  | SStr (s : string).

Abbreviation column := (list scalar).
(** A two-dimensional array is the list of its rows; [len] counts rows. *)
Abbreviation array := (list (list scalar)).

(** [np.arange(n)]: the integers [0 .. n-1] in order. *)
Definition arange (n : nat) : column := (λ i, SInt (Z.of_nat i)) <$> seq 0 n.

(** ** AnnData objects

    The fields the script touches: the shape, [X], the per-row columns
    [obs], the per-row arrays [obsm] and the unstructured annotation [uns]
    (whose only entry written here is a dictionary of strings). *)
Record AnnData := mkAnnData {
  n_obs : nat;
  n_vars : nat;
  X : option array;
  obs : gmap string column;
  obsm : gmap string array;
  uns : gmap string (gmap string string)
}.

(** What [anndata] guarantees of every object it builds or reads: every
    per-row structure has [n_obs] rows. *)
Definition wf_AnnData (a : AnnData) : Prop :=
  match X a with Some x => length x = n_obs a | None => True end ∧
  map_Forall (λ _ c, length c = n_obs a) (obs a) ∧
  map_Forall (λ _ v, length v = n_obs a) (obsm a).

#[global] Instance wf_AnnData_dec a : Decision (wf_AnnData a).
Proof. unfold wf_AnnData. destruct (X a); apply _. Defined.

Abbreviation loc := nat.

(** ** Coordinate transforms

    [sd.Translation], [sd.Scale], [sd.compose_transformations] and
    [to_affine] belong to the [spatialdata] package. *)

Record AffineTransform := mkAffine {
  matrix : list (list Qc);
  offset : list Qc
}.

(** Modelled from the spec: the transform kinds of section 3 (Identity,
    Translation, Scale, Affine) and the composition of two transforms that
    [compose] of section 4.1 returns, kept unreduced until [to_affine]. *)
Inductive Transform :=
  | Identity (ndim : nat)
  | Translation (t : list Qc)
  | Scale (s : list Qc)
  | Affine (A : AffineTransform)
  | Sequence (a b : Transform).

Abbreviation zeros n := (replicate n (0 : Qc)).

(** Addition of vectors; the shorter one counts as padded with zeros. *)
Fixpoint vadd (u v : list Qc) : list Qc :=
  match u, v with
  | [], _ => v
  | _, [] => u
  | a :: u', b :: v' => (a + b) :: vadd u' v'
  end.

Definition vscale (c : Qc) (v : list Qc) : list Qc := Qcmult c <$> v.

Fixpoint dot (u v : list Qc) : Qc :=
  match u, v with
  | a :: u', b :: v' => a * b + dot u' v'
  | _, _ => 0
  end.

(** Matrix times column vector. *)
Definition mat_vec (m : list (list Qc)) (x : list Qc) : list Qc :=
  (λ row, dot row x) <$> m.

(** Row vector times matrix: the combination of the rows of [m] with the
    coefficients [r]. *)
Fixpoint vec_mat (r : list Qc) (m : list (list Qc)) : list Qc :=
  match r, m with
  | c :: r', row :: m' => vadd (vscale c row) (vec_mat r' m')
  | _, _ => []
  end.

Definition mat_mul (b a : list (list Qc)) : list (list Qc) :=
  (λ r, vec_mat r a) <$> b.

Fixpoint identity_matrix (n : nat) : list (list Qc) :=
  match n with
  | O => []
  | S n' => (1 :: zeros n') :: (cons 0 <$> identity_matrix n')
  end.

Fixpoint diagonal_matrix (s : list Qc) : list (list Qc) :=
  match s with
  | [] => []
  | c :: s' => (c :: zeros (length s')) :: (cons 0 <$> diagonal_matrix s')
  end.

(** A well-shaped affine transform of dimension [n]: an [n] by [n] matrix
    and an offset of [n] entries. *)
Definition affine_dim_ok (n : nat) (A : AffineTransform) : bool :=
  bool_decide (length (matrix A) = n) &&
  forallb (λ row, bool_decide (length row = n)) (matrix A) &&
  bool_decide (length (offset A) = n).

Definition affine_ndim (A : AffineTransform) : nat := length (offset A).

(** Modelled from the spec: [make_translation] of section 4.1, an N-axis
    additive offset. *)
Definition make_translation (t : list Qc) : Transform := Translation t.

(** Modelled from the spec: [make_scale] of section 4.1, an N-axis
    multiplicative factor. *)
Definition make_scale (s : list Qc) : Transform := Scale s.

(** Modelled from the spec: [compose a b] of section 4.1, the transform
    that applies [a], then [b]. *)
Definition compose_transformations (a b : Transform) : Transform := Sequence a b.

(** Modelled from the spec: [to_affine] of section 4.1, the reduction of a
    transform to one matrix and one offset; transforms of different
    dimensions do not compose and give a [ValidationError]. *)
Fixpoint to_affine (t : Transform) : result AffineTransform :=
  match t with
  | Identity n => Ok (mkAffine (identity_matrix n) (zeros n))
  | Translation v => Ok (mkAffine (identity_matrix (length v)) v)
  | Scale s => Ok (mkAffine (diagonal_matrix s) (zeros (length s)))
  | Affine A => if affine_dim_ok (affine_ndim A) A then Ok A else Err ValidationError
  | Sequence a b =>
      match to_affine a, to_affine b with
      | Ok A, Ok B =>
          if bool_decide (affine_ndim A = affine_ndim B)
          then Ok (mkAffine (mat_mul (matrix B) (matrix A))
                            (vadd (mat_vec (matrix B) (offset A)) (offset B)))
          else Err ValidationError
      | Err e, _ => Err e
      | _, Err e => Err e
      end
  end.

(** The image of a coordinate under an affine transform. *)
Definition apply_affine (A : AffineTransform) (x : list Qc) : list Qc :=
  vadd (mat_vec (matrix A) x) (offset A).

(** The elementwise [x * s + t] of the specification. *)
Fixpoint scale_then_translate (x s t : list Qc) : list Qc :=
  match x, s, t with
  | xi :: x', si :: s', ti :: t' => (xi * si + ti) :: scale_then_translate x' s' t'
  | _, _, _ => []
  end.

(** ** Polygons

    [Polygons.anndata_from_geojson] belongs to the [spatialdata] package. *)

(** One entry of the geometry document: its type tag, its name and its
    rings, each ring a list of points. *)
Record geometry := mkGeometry {
  g_type : string;
  g_name : string;
  g_coordinates : list (list (list Qc))
}.

Record polygon := mkPolygon {
  p_name : string;
  p_ring : list (list Qc)
}.

(** Modelled from the spec: the reading of one geometry in section 4.2; a
    simple polygon has the type tag "Polygon" and exactly one ring, and
    anything else is a [ParseError]. *)
Definition polygon_of_geometry (g : geometry) : result polygon :=
  if bool_decide (g_type g = "Polygon") then
    match g_coordinates g with
    | [ring] => Ok (mkPolygon (g_name g) ring)
    | _ => Err ParseError
    end
  else Err ParseError.

(** Modelled from the spec: [Polygons.anndata_from_geojson], the polygon
    set layer of section 4.2, which keeps every name and ring as it is and
    fails as soon as one geometry is not a simple polygon. *)
Fixpoint anndata_from_geojson (doc : list geometry) : result (list polygon) :=
  match doc with
  | [] => Ok []
  | g :: doc' =>
      match polygon_of_geometry g with
      | Ok p =>
          match anndata_from_geojson doc' with
          | Ok ps => Ok (p :: ps)
          | Err e => Err e
          end
      | Err e => Err e
      end
  end.

(** ** The dataset, the store and the state of a run *)

Abbreviation image := (list (list Z)).

(** The arguments of [sd.SpatialData(...)], as the script passes them: the
    table and the point layers are references to [AnnData] objects. *)
Record SpatialData := mkSpatialData {
  table : loc;
  points : gmap string loc;
  images : gmap string image;
  images_transform : gmap string AffineTransform;
  polygons : gmap string (list polygon)
}.

Abbreviation path := (list string).

Inductive node :=
  | Dir
  | File (content : string).

Inductive output :=
  | OutDataset (d : SpatialData)
  | OutText (s : string).

Record state := mkState {
  heap : gmap loc AnnData;
  fs : gmap path node;
  stdout : list output
}.

(** ** The monad of the script: state and exceptions

    An exception keeps the state reached when it was raised. *)
Definition M (A : Type) : Type := state → result A * state.

#[global] Instance M_ret : MRet M := λ A a s, (Ok a, s).

#[global] Instance M_bind : MBind M := λ A B f m s,
  match m s with
  | (Ok a, s') => f a s'
  | (Err e, s') => (Err e, s')
  end.

Definition raise {A} (e : error) : M A := λ s, (Err e, s).

Definition lift {A} (r : result A) : M A := λ s, (r, s).

(** A new object gets a reference no live object has. *)
Definition new_object (a : AnnData) : M loc := λ s,
  let l := fresh (dom (heap s)) in
  (Ok l, mkState (<[l := a]> (heap s)) (fs s) (stdout s)).

Definition deref (l : loc) : M AnnData := λ s,
  match heap s !! l with
  | Some a => (Ok a, s)
  | None => (Err ReferenceError, s)
  end.

Definition assign (l : loc) (a : AnnData) : M unit := λ s,
  (Ok tt, mkState (<[l := a]> (heap s)) (fs s) (stdout s)).

Definition print (o : output) : M unit := λ s,
  (Ok tt, mkState (heap s) (fs s) (stdout s ++ [o])).

(** ** Operations of [anndata] used by the script *)

(** [sc.read_h5ad(file)]: the parsed content becomes a new object. *)
Definition read_h5ad (content : AnnData) : M loc := new_object content.

(** [ad.AnnData(shape=(n, m))]: an object with no data and no annotation. *)
Definition AnnData_shape (n m : nat) : M loc :=
  new_object (mkAnnData n m None ∅ ∅ ∅).

(** [a.copy()]: a new object with the same content. *)
Definition ad_copy (l : loc) : M loc := a ← deref l; new_object a.

(** [len(a)] *)
Definition ad_len (l : loc) : M nat := a ← deref l; mret (n_obs a).

(** [a.X] *)
Definition ad_X (l : loc) : M (option array) := a ← deref l; mret (X a).

(** [a.obsm[k]] *)
Definition obsm_get (l : loc) (k : string) : M array :=
  a ← deref l;
  match obsm a !! k with
  | Some v => mret v
  | None => raise (KeyError k)
  end.

(** [a.obsm[k] = v]: [anndata] reads the shape of [v], which [None] does
    not have, and refuses a value whose row count is not [n_obs]. *)
Definition obsm_set (l : loc) (k : string) (v : option array) : M unit :=
  a ← deref l;
  match v with
  | None => raise AttributeError
  | Some v =>
      if bool_decide (length v = n_obs a)
      then assign l (mkAnnData (n_obs a) (n_vars a) (X a) (obs a) (<[k := v]> (obsm a)) (uns a))
      else raise ValueError
  end.

(** [del a.obsm[k]] *)
Definition obsm_del (l : loc) (k : string) : M unit :=
  a ← deref l;
  match obsm a !! k with
  | Some _ => assign l (mkAnnData (n_obs a) (n_vars a) (X a) (obs a) (delete k (obsm a)) (uns a))
  | None => raise (KeyError k)
  end.

(** [a.obs[k] = c] for a sequence [c]: the lengths must agree. *)
Definition obs_set (l : loc) (k : string) (c : column) : M unit :=
  a ← deref l;
  if bool_decide (length c = n_obs a)
  then assign l (mkAnnData (n_obs a) (n_vars a) (X a) (<[k := c]> (obs a)) (obsm a) (uns a))
  else raise ValueError.

(** [a.obs[k] = v] for one value [v]: every row gets it. *)
Definition obs_fill (l : loc) (k : string) (v : scalar) : M unit :=
  a ← deref l;
  assign l (mkAnnData (n_obs a) (n_vars a) (X a) (<[k := replicate (n_obs a) v]> (obs a)) (obsm a) (uns a)).

(** [a.uns[k] = d] *)
Definition uns_set (l : loc) (k : string) (d : gmap string string) : M unit :=
  a ← deref l;
  assign l (mkAnnData (n_obs a) (n_vars a) (X a) (obs a) (obsm a) (<[k := d]> (uns a))).

(** [j[k]] on the dictionary [json.load] returns. *)
Definition json_get (j : gmap string Qc) (k : string) : M Qc :=
  match j !! k with
  | Some v => mret v
  | None => raise (KeyError k)
  end.

(** ** The script, block by block *)

(** The parsed input files of one run. *)
Record inputs := mkInputs {
  in_cells : AnnData;
  in_img : image;
  in_adata : AnnData;
  in_j : gmap string Qc;
  in_geojson : list geometry
}.

(** Lines 26-28: the molecule layer, built from the object read from
    [single_molecule.h5ad]. *)
Definition make_single_molecule (adata : loc) : M loc :=
  n ← ad_len adata;
  single_molecule ← AnnData_shape n 0;
  x ← ad_X adata;
  obsm_set single_molecule "spatial" x;;
  cell_type ← obsm_get adata "cell_type";
  obsm_set single_molecule "spatial_type" (Some cell_type);;
  mret single_molecule.

(** Lines 31-32: the translation and the scale factors of the alignment
    record, each as the vector [x, y]. *)
Definition image_vectors (j : gmap string Qc) : M (list Qc * list Qc) :=
  translation_x ← json_get j "translation_x";
  translation_y ← json_get j "translation_y";
  scale_factor_x ← json_get j "scale_factor_x";
  scale_factor_y ← json_get j "scale_factor_y";
  mret ([translation_x; translation_y], [scale_factor_x; scale_factor_y]).

Definition mapping_info : gmap string string :=
  {[ "regions" := "cells"; "regions_key" := "regions_id"; "instance_key" := "cell_id" ]}.

(** Lines 34-39: the table, a copy of [cells] without its spatial arrays
    and with the relation to the region layer attached. *)
Definition make_expression (cells : loc) : M loc :=
  expression ← ad_copy cells;
  obsm_del expression "region_radius";;
  obsm_del expression "spatial";;
  uns_set expression "mapping_info" mapping_info;;
  obs_fill expression "regions_id" (SStr "cells");;
  n ← ad_len expression;
  obs_set expression "cell_id" (arange n);;
  mret expression.

(** Lines 41-44: the region layer, holding the spatial arrays of [cells]. *)
Definition make_regions (cells : loc) : M loc :=
  spatial ← obsm_get cells "spatial";
  regions ← AnnData_shape (length spatial) 0;
  region_radius ← obsm_get cells "region_radius";
  obsm_set regions "region_radius" (Some region_radius);;
  spatial ← obsm_get cells "spatial";
  obsm_set regions "spatial" (Some spatial);;
  n ← ad_len regions;
  obs_set regions "cell_id" (arange n);;
  mret regions.

(** Lines 58-62: the transform of the image, scale first. *)
Definition image_transform (image_translation image_scale_factors : list Qc)
  : M AffineTransform :=
  let translation := make_translation image_translation in
  let scale := make_scale image_scale_factors in
  lift (to_affine (compose_transformations scale translation)).

(** The row count of the region layer the table names in its
    [mapping_info], when the name resolves to a point layer. *)
Definition region_rows (h : gmap loc AnnData) (t : AnnData) (pts : gmap string loc)
  : option nat :=
  info ← uns t !! "mapping_info";
  region ← info !! "regions";
  l ← pts !! region;
  r ← h !! l;
  Some (n_obs r).

(** Modelled from the spec: the constructor [sd.SpatialData], the
    [assemble] of section 4.3.  It checks that the region the table names
    is one of the point layers and has as many rows as the table (section
    4.2, [ConsistencyError]), and that every image transform names an image
    ([ValidationError]); it builds the aggregate from its arguments and
    changes nothing else. *)
Definition SpatialData_init (table : loc) (points : gmap string loc)
    (images : gmap string image) (images_transform : gmap string AffineTransform)
    (polygons : gmap string (list polygon)) : M SpatialData :=
  t ← deref table;
  h ← (λ s, (Ok (heap s), s));
  match region_rows h t points with
  | None => raise ConsistencyError
  | Some rows =>
      if bool_decide (n_obs t = rows) then
        if bool_decide (dom images_transform ⊆ dom images)
        then mret (mkSpatialData table points images images_transform polygons)
        else raise ValidationError
      else raise ConsistencyError
  end.

(** The variables lines 23-44 leave for the rest of the script. *)
Record layers := mkLayers {
  single_molecule : loc;
  image_translation : list Qc;
  image_scale_factors : list Qc;
  expression : loc;
  regions : loc
}.

(** Lines 23-44: the layers built from the tables and the alignment
    record. *)
Definition build_layers (inp : inputs) : M layers :=
  cells ← read_h5ad (in_cells inp);
  adata ← read_h5ad (in_adata inp);
  single_molecule ← make_single_molecule adata;
  v ← image_vectors (in_j inp);
  expression ← make_expression cells;
  regions ← make_regions cells;
  mret (mkLayers single_molecule v.1 v.2 expression regions).

(** Lines 47-70: the polygons, the transform of the image and the
    dataset. *)
Definition build_dataset (inp : inputs) (ls : layers) : M SpatialData :=
  let img := in_img inp in
  adata_polygons ← lift (anndata_from_geojson (in_geojson inp));
  composed ← image_transform (image_translation ls) (image_scale_factors ls);
  SpatialData_init (expression ls)
    (<["single_molecule" := single_molecule ls]> {[ "cells" := regions ls ]})
    {[ "rasterized" := img ]}
    {[ "rasterized" := composed ]}
    {[ "anatomical" := adata_polygons ]}.

(** Lines 23-70: from the parsed inputs to the dataset. *)
Definition assemble (inp : inputs) : M SpatialData :=
  ls ← build_layers inp;
  build_dataset inp ls.

(** [path.exists()] *)
Definition path_exists (p : path) : M bool := λ s,
  (Ok (bool_decide (is_Some (fs s !! p))), s).

(** What is left of a file system once the tree at [p] is gone. *)
Definition remove_tree (p : path) (f : gmap path node) : gmap path node :=
  filter (λ kv, ¬ p `prefix_of` kv.1) f.

(** [shutil.rmtree(p)]: only a directory can be removed. *)
Definition rmtree (p : path) : M unit := λ s,
  match fs s !! p with
  | Some Dir => (Ok tt, mkState (heap s) (remove_tree p (fs s)) (stdout s))
  | Some (File _) => (Err NotADirectoryError, s)
  | None => (Err FileNotFoundError, s)
  end.

Definition quote : string := String (Ascii.ascii_of_nat 34) EmptyString.

Section script.

(** [sdata.write]: the writer of the [spatialdata] package, which sees
    the dataset, its objects, the destination and the file system, and may
    leave a partial store behind when it fails. *)
Variable sd_write :
  SpatialData → gmap loc AnnData → path → gmap path node →
  result unit * gmap path node.

Definition write (sdata : SpatialData) (p : path) : M unit := λ s,
  let '(r, f) := sd_write sdata (heap s) p (fs s) in
  (r, mkState (heap s) f (stdout s)).

(** Lines 74-76: an existing destination is removed, then the dataset is
    written. *)
Definition persist (sdata : SpatialData) (path_write : path) : M unit :=
  e ← path_exists path_write;
  (if (e : bool) then rmtree path_write else mret tt);;
  write sdata path_write.

(** The whole script, run in the directory [base]. *)
Definition to_zarr (inp : inputs) (base : path) : M unit :=
  let path_write := base ++ ["data.zarr"] in
  sdata ← assemble inp;
  print (OutDataset sdata);;
  persist sdata path_write;;
  print (OutText "done");;
  print (OutText ("view with " +:+ quote +:+
                  "python -m napari_spatialdata view data.zarr" +:+ quote)).

End script.

(** ** The objects the blocks are expected to leave *)

(** The table: the content of [cells] without the two spatial arrays, with
    the [mapping_info] record and the two columns of the relation. *)
Definition expression_of (c : AnnData) : AnnData :=
  mkAnnData (n_obs c) (n_vars c) (X c)
    (<["cell_id" := arange (n_obs c)]>
       (<["regions_id" := replicate (n_obs c) (SStr "cells")]> (obs c)))
    (delete "spatial" (delete "region_radius" (obsm c)))
    (<["mapping_info" := mapping_info]> (uns c)).

(** The region layer: no feature column, the two spatial arrays and the
    identity column. *)
Definition regions_of (sp rr : array) : AnnData :=
  mkAnnData (length sp) 0 None
    {[ "cell_id" := arange (length sp) ]}
    (<["spatial" := sp]> {[ "region_radius" := rr ]})
    ∅.

(** The molecule layer: no feature column, the coordinates and the labels. *)
Definition single_molecule_of (a : AnnData) (x ct : array) : AnnData :=
  mkAnnData (n_obs a) 0 None ∅ (<["spatial_type" := ct]> {[ "spatial" := x ]}) ∅.

(** ** A writer and a run, for concrete checks *)

(** Modelled from the spec: the store layout of section 4.4, one subtree
    per layer kind and one entry per layer name under the destination, the
    transform of an image inside the subtree of that image. *)
Definition write_store (sdata : SpatialData) (h : gmap loc AnnData) (p : path)
    (f : gmap path node) : result unit * gmap path node :=
  let leaves (kind : string) (names : list string) : list (path * node) :=
    (p ++ [kind], Dir) :: ((λ name, (p ++ [kind; name], File kind)) <$> names) in
  let subtrees (kind : string) (names : list string) : list (path * node) :=
    (p ++ [kind], Dir) :: ((λ name, (p ++ [kind; name], Dir)) <$> names) in
  let sidecars (kind file : string) (names : list string) : list (path * node) :=
    (λ name, (p ++ [kind; name; file], File file)) <$> names in
  let layers : list (path * node) :=
    [(p, Dir); (p ++ ["table"], File "table")] ++
    leaves "points" (elements (dom (points sdata))) ++
    subtrees "images" (elements (dom (images sdata))) ++
    sidecars "images" "data" (elements (dom (images sdata))) ++
    sidecars "images" "transform" (elements (dom (images_transform sdata))) ++
    leaves "polygons" (elements (dom (polygons sdata))) in
  (Ok tt, list_to_map layers ∪ f).

Definition qz (z : Z) : Qc := Qc_of_Z z.

Definition num_row (zs : list Z) : list scalar := (λ z, SNum (qz z)) <$> zs.

(** The three cells of the scenario of the specification, with the radii
    doubled to keep them integers. *)
Local Open Scope Z_scope.

Definition example_cells : AnnData :=
  mkAnnData 3 2
    (Some [num_row [10; 20]; num_row [30; 40]; num_row [50; 60]])
    {[ "leiden" := [SStr "a"; SStr "b"; SStr "a"] ]}
    {[ "region_radius" := [num_row [2]; num_row [4]; num_row [3]];
       "spatial" := [num_row [0; 0]; num_row [1; 1]; num_row [2; 2]] ]}
    ∅.

Definition example_adata : AnnData :=
  mkAnnData 2 2
    (Some [num_row [7; 8]; num_row [9; 10]])
    ∅
    {[ "cell_type" := [[SStr "neuron"]; [SStr "glia"]] ]}
    ∅.

Definition example_j : gmap string Qc :=
  {[ "translation_x" := qz 5; "translation_y" := qz (-3);
     "scale_factor_x" := qz 2; "scale_factor_y" := qz 2 ]}.

Definition example_geojson : list geometry :=
  [mkGeometry "Polygon" "cortex" [[[qz 0; qz 0]; [qz 4; qz 0]; [qz 4; qz 4]; [qz 0; qz 0]]]].

Definition example_inputs : inputs :=
  mkInputs example_cells [[0; 1]; [2; 3]] example_adata example_j example_geojson.

Local Close Scope Z_scope.

(** A document whose second geometry is not a polygon. *)
Definition example_bad_geojson : list geometry :=
  example_geojson ++ [mkGeometry "LineString" "border" [[[qz 0; qz 0]; [qz 1; qz 1]]]].

Definition example_bad_inputs : inputs :=
  mkInputs example_cells [[0; 1]; [2; 3]]%Z example_adata example_j example_bad_geojson.

(** Inputs whose cell table has no spatial arrays. *)
Definition example_unready_inputs : inputs :=
  mkInputs example_adata [[0; 1]; [2; 3]]%Z example_adata example_j example_geojson.

(** A store of objects holding the two tables read from disk. *)
Definition example_state : state :=
  mkState (<[1%nat := example_adata]> {[ 0%nat := example_cells ]}) ∅ [].


Definition empty_state : state := mkState ∅ ∅ [].

(** A file system with an earlier store at the destination, which has a
    point layer the new dataset does not have. *)
Definition example_files : gmap path node :=
  list_to_map
    [(["merfish"], Dir);
     (["merfish"; "data.zarr"], Dir);
     (["merfish"; "data.zarr"; "points"], Dir);
     (["merfish"; "data.zarr"; "points"; "nuclei"], File "points");
     (["merfish"; "data"], Dir)].

(** A table of three rows whose region layer has two rows. *)
Definition example_mismatch : state :=
  mkState
    (<[1%nat := regions_of [num_row [0; 0]; num_row [1; 1]]%Z [num_row [2]; num_row [4]]%Z]>
       {[ 0%nat := expression_of example_cells ]})
    example_files [].

(** ** The directories of a run (lines 13-20) *)

(** [str(path)] of an absolute path: every component after a slash, and
    the root alone is one slash. *)
Definition path_str (p : path) : string :=
  match p with
  | [] => "/"
  | _ => foldr (λ c acc, "/" +:+ c +:+ acc) "" p
  end.

(** [s.endswith(suffix)] *)
Definition endswith (s suffix : string) : bool :=
  bool_decide (String.list_ascii_of_string suffix `suffix_of` String.list_ascii_of_string s).

(** Lines 13-17: the working directory [cwd] is taken as it is when its
    name ends with merfish; otherwise its subdirectory merfish is taken,
    and asserted to exist.  [None] stands for the [AssertionError]. *)
Definition resolve_path (cwd : path) (f : gmap path node) : option path :=
  if negb (endswith (path_str cwd) "merfish") then
    let p := cwd ++ ["merfish"] in
    if bool_decide (is_Some (f !! p)) then Some p else None
  else Some cwd.

(** Line 19 *)
Definition path_read (p : path) : path := p ++ ["data"; "processed"].

(** Line 20 *)
Definition path_write (p : path) : path := p ++ ["data.zarr"].

(** How a run started in [cwd] ends: with the failed assertion of line 17,
    or with what the rest of the script does. *)
Inductive outcome :=
  | AssertionFailed
  | Ran (r : result unit * state).

Definition main
    (sd_write : SpatialData → gmap loc AnnData → path → gmap path node →
                result unit * gmap path node)
    (inp : inputs) (cwd : path) (st : state) : outcome :=
  match resolve_path cwd (fs st) with
  | Some p => Ran (to_zarr sd_write inp p st)
  | None => AssertionFailed
  end.

(** The last line the script prints (line 78). *)
Definition view_notice : string :=
  "view with " +:+ quote +:+ "python -m napari_spatialdata view data.zarr" +:+ quote.

(** The four fields read from the alignment record, in the order the
    script reads them. *)
Definition alignment_keys : list string :=
  ["translation_x"; "translation_y"; "scale_factor_x"; "scale_factor_y"].

(** A writer that changes nothing outside its destination. *)
Definition writes_under
    (sd_write : SpatialData → gmap loc AnnData → path → gmap path node →
                result unit * gmap path node) : Prop :=
  ∀ sdata h (p : path) f (q : path),
    ¬ p `prefix_of` q → (sd_write sdata h p f).2 !! q = f !! q.

(** What lines 23-44 need of the parsed inputs. *)
Definition layers_ready (inp : inputs) : Prop :=
  ∃ x ct sp rr tx ty sx sy,
    X (in_adata inp) = Some x ∧ length x = n_obs (in_adata inp) ∧
    obsm (in_adata inp) !! "cell_type" = Some ct ∧ length ct = n_obs (in_adata inp) ∧
    in_j inp !! "translation_x" = Some tx ∧ in_j inp !! "translation_y" = Some ty ∧
    in_j inp !! "scale_factor_x" = Some sx ∧ in_j inp !! "scale_factor_y" = Some sy ∧
    obsm (in_cells inp) !! "spatial" = Some sp ∧
    obsm (in_cells inp) !! "region_radius" = Some rr ∧
    length rr = length sp.

(** The exception lines 23-44 end with, if any, read off the inputs in
    the order of the statements: the molecule table first, then the
    alignment record, then the cell table. *)
Definition layers_error (inp : inputs) : option error :=
  let adata := in_adata inp in
  let cells := in_cells inp in
  let j := in_j inp in
  match X adata with
  | None => Some AttributeError
  | Some x =>
    if negb (bool_decide (length x = n_obs adata)) then Some ValueError else
    match obsm adata !! "cell_type" with
    | None => Some (KeyError "cell_type")
    | Some ct =>
      if negb (bool_decide (length ct = n_obs adata)) then Some ValueError else
      match j !! "translation_x", j !! "translation_y",
            j !! "scale_factor_x", j !! "scale_factor_y" with
      | None, _, _, _ => Some (KeyError "translation_x")
      | Some _, None, _, _ => Some (KeyError "translation_y")
      | Some _, Some _, None, _ => Some (KeyError "scale_factor_x")
      | Some _, Some _, Some _, None => Some (KeyError "scale_factor_y")
      | Some _, Some _, Some _, Some _ =>
        match obsm cells !! "region_radius", obsm cells !! "spatial" with
        | None, _ => Some (KeyError "region_radius")
        | Some _, None => Some (KeyError "spatial")
        | Some rr, Some sp =>
          if negb (bool_decide (length rr = length sp)) then Some ValueError else None
        end
      end
    end
  end.

(** A computation that leaves the file system and the output alone,
    whether it returns or raises. *)
Definition keeps_files {A} (m : M A) : Prop :=
  ∀ s, fs (m s).2 = fs s ∧ stdout (m s).2 = stdout s.

(** * Properties *)

(** ** Vectors and matrices *)

Section linear_algebra.
Implicit Types (u v x s t : list Qc) (m : list (list Qc)) (c : Qc).

Lemma length_zeros n : length (zeros n) = n.
Proof. apply length_replicate. Qed.

Lemma vadd_nil_r v : vadd v [] = v.
Proof. by destruct v. Qed.

Lemma length_vadd u v : length (vadd u v) = (length u `max` length v)%nat.
Proof.
  revert v. induction u as [|a u IH]; intros [|b v]; simpl; try done.
  by rewrite IH.
Qed.

Lemma vadd_zeros_l n v : (n ≤ length v)%nat → vadd (zeros n) v = v.
Proof.
  revert v. induction n as [|n IH]; intros [|b v] Hn; simpl in *; try done; try lia.
  rewrite IH by lia. f_equal. ring.
Qed.

Lemma vadd_zeros_r n v : (n ≤ length v)%nat → vadd v (zeros n) = v.
Proof.
  revert v. induction n as [|n IH]; intros [|b v] Hn; simpl in *; try done; try lia.
  rewrite IH by lia. f_equal. ring.
Qed.

Lemma vscale_zero v : vscale 0 v = zeros (length v).
Proof.
  induction v as [|a v IH]; [done|].
  unfold vscale in *. rewrite fmap_cons, IH. cbn [length replicate].
  f_equal. ring.
Qed.

Lemma vscale_one v : vscale 1 v = v.
Proof.
  induction v as [|a v IH]; [done|].
  unfold vscale in *. rewrite fmap_cons, IH. f_equal. ring.
Qed.

Lemma dot_zeros_l n x : dot (zeros n) x = 0.
Proof.
  revert x. induction n as [|n IH]; intros [|b x]; simpl; try done.
  rewrite IH. ring.
Qed.

Lemma mat_vec_cons_zero m a x :
  mat_vec (cons 0 <$> m) (a :: x) = mat_vec m x.
Proof.
  unfold mat_vec. rewrite <- list_fmap_compose. apply list_fmap_ext.
  intros i row _. simpl. ring.
Qed.

(** The diagonal matrix scales each coordinate by its factor. *)
Lemma mat_vec_diagonal s x :
  length s = length x → mat_vec (diagonal_matrix s) x = zip_with Qcmult s x.
Proof.
  revert x. induction s as [|c s IH]; intros [|a x] Hlen; simpl in *; try done.
  rewrite dot_zeros_l, mat_vec_cons_zero, IH by lia. f_equal. ring.
Qed.

Lemma mat_vec_identity n x : length x = n → mat_vec (identity_matrix n) x = x.
Proof.
  revert x. induction n as [|n IH]; intros [|a x] Hlen; simpl in *; try done.
  rewrite dot_zeros_l, mat_vec_cons_zero, IH by lia. f_equal. ring.
Qed.

Lemma length_identity n : length (identity_matrix n) = n.
Proof. induction n; simpl; [done|]. by rewrite length_fmap, IHn. Qed.

Lemma identity_rows n row : row ∈ identity_matrix n → length row = n.
Proof.
  revert row. induction n as [|n IH]; intros row; simpl.
  - by intros ?%elem_of_nil.
  - intros [->|Hin]%elem_of_cons; simpl; [by rewrite length_zeros|].
    apply list_elem_of_fmap in Hin as (r & -> & Hr). simpl. by rewrite (IH r).
Qed.

Lemma length_diagonal s : length (diagonal_matrix s) = length s.
Proof. induction s; simpl; [done|]. by rewrite length_fmap, IHs. Qed.

Lemma diagonal_rows s row : row ∈ diagonal_matrix s → length row = length s.
Proof.
  revert row. induction s as [|c s IH]; intros row; simpl.
  - by intros ?%elem_of_nil.
  - intros [->|Hin]%elem_of_cons; simpl; [by rewrite length_zeros|].
    apply list_elem_of_fmap in Hin as (r & -> & Hr). simpl. by rewrite (IH r).
Qed.

(** A combination of rows of length [k] has length [k], unless it is the
    empty combination. *)
Lemma length_vec_mat r m k :
  length r = length m → (∀ row, row ∈ m → length row = k) → (0 < length m)%nat →
  length (vec_mat r m) = k.
Proof.
  revert m. induction r as [|c r IH]; intros [|row m] Hlen Hrows Hpos;
    simpl in *; try lia.
  rewrite length_vadd. unfold vscale. rewrite length_fmap, (Hrows row) by left.
  destruct m as [|row' m].
  - destruct r; [|simpl in *; lia]. simpl. lia.
  - rewrite (IH (row' :: m)); [lia|simpl in *; lia| |simpl; lia].
    intros r' Hr'. apply Hrows. by right.
Qed.

Lemma vec_mat_zeros n m k :
  length m = n → (∀ row, row ∈ m → length row = k) → (0 < n)%nat →
  vec_mat (zeros n) m = zeros k.
Proof.
  revert m. induction n as [|n IH]; intros [|row m] Hlen Hrows Hpos; simpl in *; try lia.
  rewrite vscale_zero, (Hrows row) by left.
  destruct n as [|n].
  - destruct m; [|simpl in *; lia]. simpl. by rewrite vadd_nil_r.
  - rewrite (IH m); [|lia| |lia].
    + apply vadd_zeros_l. by rewrite length_zeros.
    + intros r Hr. apply Hrows. by right.
Qed.

(** The identity matrix is a left unit of the product. *)
Lemma mat_mul_identity n m k :
  length m = n → (∀ row, row ∈ m → length row = k) →
  mat_mul (identity_matrix n) m = m.
Proof.
  unfold mat_mul.
  revert m. induction n as [|n IH]; intros [|row m] Hlen Hrows; simpl in *; try done.
  f_equal.
  - rewrite vscale_one. destruct n as [|n].
    + destruct m; [|simpl in *; lia]. simpl. by rewrite vadd_nil_r.
    + rewrite (vec_mat_zeros (S n) m k); [|lia| |lia].
      * apply vadd_zeros_r. rewrite (Hrows row) by left. done.
      * intros r Hr. apply Hrows. by right.
  - rewrite <- list_fmap_compose.
    trans ((λ r, vec_mat r m) <$> identity_matrix n);
      [|apply IH; [lia|intros r Hr; apply Hrows; by right]].
    apply list_fmap_ext. intros i r Hr. simpl.
    rewrite vscale_zero.
    apply vadd_zeros_l.
    assert (r ∈ identity_matrix n) as Hin by (by eapply list_elem_of_lookup_2).
    rewrite (length_vec_mat r m k).
    + by rewrite (Hrows row) by left.
    + rewrite (identity_rows n r Hin). lia.
    + intros r' Hr'. apply Hrows. by right.
    + destruct n; [by apply elem_of_nil in Hin|lia].
Qed.

Lemma scale_then_translate_zip x s t :
  length s = length x → length t = length x →
  vadd (zip_with Qcmult s x) t = scale_then_translate x s t.
Proof.
  revert s t. induction x as [|a x IH]; intros [|c s] [|b t] Hs Ht;
    simpl in *; try done.
  rewrite IH by lia. f_equal. ring.
Qed.

(** The reduction of scale-then-translate, and what it does to a
    coordinate. *)
Lemma to_affine_scale_translation s t :
  length s = length t →
  to_affine (compose_transformations (make_scale s) (make_translation t))
  = Ok (mkAffine (diagonal_matrix s) t).
Proof.
  intros Hlen. simpl. unfold affine_ndim. simpl.
  rewrite length_zeros, bool_decide_true by done.
  rewrite (mat_mul_identity _ _ (length s)).
  - rewrite mat_vec_identity by (by rewrite length_zeros).
    rewrite vadd_zeros_l by lia. done.
  - by rewrite length_diagonal.
  - apply diagonal_rows.
Qed.

Lemma apply_scale_translation s t x :
  length s = length x → length t = length x →
  apply_affine (mkAffine (diagonal_matrix s) t) x = scale_then_translate x s t.
Proof.
  intros Hs Ht. unfold apply_affine. simpl.
  rewrite mat_vec_diagonal by done. by apply scale_then_translate_zip.
Qed.
End linear_algebra.

(** ** Running the blocks of the script *)

Lemma length_arange n : length (arange n) = n.
Proof. unfold arange. by rewrite length_fmap, length_seq. Qed.

Lemma arange_lookup n i : (i < n)%nat → arange n !! i = Some (SInt (Z.of_nat i)).
Proof.
  intros Hi. unfold arange. rewrite list_lookup_fmap, lookup_seq_lt by done. done.
Qed.

Lemma fresh_heap (h : gmap loc AnnData) : h !! fresh (dom h) = None.
Proof. apply not_elem_of_dom, is_fresh. Qed.

Ltac run_step :=
  repeat (progress (cbn beta iota delta [heap fs stdout n_obs n_vars X obs obsm uns fst snd])
          || rewrite lookup_insert_eq || rewrite insert_insert_eq).

Lemma make_expression_run cells c h f o :
  h !! cells = Some c →
  make_expression cells (mkState h f o) =
    let e := fresh (dom h) in
    match obsm c !! "region_radius", obsm c !! "spatial" with
    | Some _, Some _ => (Ok e, mkState (<[e := expression_of c]> h) f o)
    | Some _, None =>
        (Err (KeyError "spatial"),
         mkState (<[e := mkAnnData (n_obs c) (n_vars c) (X c) (obs c)
                          (delete "region_radius" (obsm c)) (uns c)]> h) f o)
    | None, _ => (Err (KeyError "region_radius"), mkState (<[e := c]> h) f o)
    end.
Proof.
  intros Hc. unfold make_expression, ad_copy, obsm_del, uns_set, obs_fill, ad_len, obs_set.
  unfold deref, new_object, assign, raise, mbind, M_bind, mret, M_ret.
  run_step. rewrite Hc. run_step.
  destruct (obsm c !! "region_radius") as [rr|] eqn:Hrr; [|done].
  run_step. rewrite lookup_delete_ne by done.
  destruct (obsm c !! "spatial") as [sp|] eqn:Hsp; [|done].
  run_step.
  rewrite length_arange, bool_decide_true by done.
  run_step. done.
Qed.

Lemma lookup_insert_fresh (h : gmap loc AnnData) l a c :
  h !! l = Some c → <[fresh (dom h) := a]> h !! l = Some c.
Proof.
  intros Hl. rewrite lookup_insert_ne; [done|].
  intros <-. by rewrite fresh_heap in Hl.
Qed.

Ltac unfold_ops :=
  unfold ad_copy, ad_len, ad_X, obsm_get, obsm_set, obsm_del, obs_set, obs_fill,
    uns_set, AnnData_shape, read_h5ad, deref, new_object, assign, raise, lift,
    mbind, M_bind, mret, M_ret.

Lemma make_regions_run cells c h f o :
  h !! cells = Some c →
  make_regions cells (mkState h f o) =
    let r := fresh (dom h) in
    match obsm c !! "spatial" with
    | None => (Err (KeyError "spatial"), mkState h f o)
    | Some sp =>
        match obsm c !! "region_radius" with
        | None =>
            (Err (KeyError "region_radius"),
             mkState (<[r := mkAnnData (length sp) 0 None ∅ ∅ ∅]> h) f o)
        | Some rr =>
            if bool_decide (length rr = length sp)
            then (Ok r, mkState (<[r := regions_of sp rr]> h) f o)
            else (Err ValueError,
                  mkState (<[r := mkAnnData (length sp) 0 None ∅ ∅ ∅]> h) f o)
        end
    end.
Proof.
  intros Hc. unfold make_regions. unfold_ops.
  run_step. rewrite Hc. run_step.
  destruct (obsm c !! "spatial") as [sp|] eqn:Hsp; [|done].
  run_step. rewrite (lookup_insert_fresh _ _ _ _ Hc). run_step.
  destruct (obsm c !! "region_radius") as [rr|] eqn:Hrr; [|done].
  run_step. case_bool_decide; [|done].
  run_step. rewrite lookup_insert_ne by (intros E; rewrite <- E, fresh_heap in Hc; done).
  rewrite Hc. run_step. rewrite Hsp. run_step.
  rewrite bool_decide_true by done. run_step.
  rewrite length_arange, bool_decide_true by done.
  run_step. done.
Qed.

Lemma make_single_molecule_run adata a h f o :
  h !! adata = Some a →
  make_single_molecule adata (mkState h f o) =
    let m := fresh (dom h) in
    let blank := mkAnnData (n_obs a) 0 None ∅ ∅ ∅ in
    match X a with
    | None => (Err AttributeError, mkState (<[m := blank]> h) f o)
    | Some x =>
        if bool_decide (length x = n_obs a) then
          let half := mkAnnData (n_obs a) 0 None ∅ {[ "spatial" := x ]} ∅ in
          match obsm a !! "cell_type" with
          | None => (Err (KeyError "cell_type"), mkState (<[m := half]> h) f o)
          | Some ct =>
              if bool_decide (length ct = n_obs a)
              then (Ok m, mkState (<[m := single_molecule_of a x ct]> h) f o)
              else (Err ValueError, mkState (<[m := half]> h) f o)
          end
        else (Err ValueError, mkState (<[m := blank]> h) f o)
    end.
Proof.
  intros Ha. unfold make_single_molecule. unfold_ops.
  run_step. rewrite Ha. run_step.
  rewrite (lookup_insert_fresh _ _ _ _ Ha). run_step.
  destruct (X a) as [x|] eqn:Hx; [|done].
  run_step. case_bool_decide; [|done].
  run_step. rewrite lookup_insert_ne by (intros E; rewrite <- E, fresh_heap in Ha; done).
  rewrite Ha. run_step.
  destruct (obsm a !! "cell_type") as [ct|] eqn:Hct; [|done].
  run_step. case_bool_decide; [|done].
  run_step. done.
Qed.

Lemma bind_Ok_inv {A B} (m : M A) (k : A → M B) s b s2 :
  (m ≫= k) s = (Ok b, s2) → ∃ a s1, m s = (Ok a, s1) ∧ k a s1 = (Ok b, s2).
Proof.
  unfold mbind, M_bind. destruct (m s) as [[a|e] s1]; [eauto|done].
Qed.

Lemma bind_Err {A B} (m : M A) (k : A → M B) s e s1 :
  m s = (Err e, s1) → (m ≫= k) s = (Err e, s1).
Proof. unfold mbind, M_bind. by intros ->. Qed.

Lemma bind_Ok {A B} (m : M A) (k : A → M B) s a s1 :
  m s = (Ok a, s1) → (m ≫= k) s = k a s1.
Proof. unfold mbind, M_bind. by intros ->. Qed.

Lemma make_expression_Ok cells c h f o e s' :
  h !! cells = Some c →
  make_expression cells (mkState h f o) = (Ok e, s') →
  e = fresh (dom h) ∧ s' = mkState (<[e := expression_of c]> h) f o ∧
  is_Some (obsm c !! "region_radius") ∧ is_Some (obsm c !! "spatial").
Proof.
  intros Hc. rewrite (make_expression_run _ _ _ _ _ Hc). cbv zeta.
  destruct (obsm c !! "region_radius"), (obsm c !! "spatial"); intros [= <- <-]; eauto.
Qed.

Lemma make_regions_Ok cells c h f o r s' :
  h !! cells = Some c →
  make_regions cells (mkState h f o) = (Ok r, s') →
  ∃ sp rr, obsm c !! "spatial" = Some sp ∧ obsm c !! "region_radius" = Some rr ∧
    length rr = length sp ∧
    r = fresh (dom h) ∧ s' = mkState (<[r := regions_of sp rr]> h) f o.
Proof.
  intros Hc. rewrite (make_regions_run _ _ _ _ _ Hc). cbv zeta.
  destruct (obsm c !! "spatial") as [sp|]; [|done].
  destruct (obsm c !! "region_radius") as [rr|]; [|done].
  case_bool_decide; [|done]. intros [= <- <-]. eauto 10.
Qed.

Lemma make_single_molecule_Ok adata a h f o m s' :
  h !! adata = Some a →
  make_single_molecule adata (mkState h f o) = (Ok m, s') →
  ∃ x ct, X a = Some x ∧ obsm a !! "cell_type" = Some ct ∧
    length x = n_obs a ∧ length ct = n_obs a ∧
    m = fresh (dom h) ∧ s' = mkState (<[m := single_molecule_of a x ct]> h) f o.
Proof.
  intros Ha. rewrite (make_single_molecule_run _ _ _ _ _ Ha). cbv zeta.
  destruct (X a) as [x|]; [|done]. case_bool_decide; [|done].
  destruct (obsm a !! "cell_type") as [ct|]; [|done].
  case_bool_decide; [|done]. intros [= <- <-]. eauto 10.
Qed.

Lemma image_vectors_Ok j s v s' :
  image_vectors j s = (Ok v, s') →
  ∃ tx ty sx sy, j !! "translation_x" = Some tx ∧ j !! "translation_y" = Some ty ∧
    j !! "scale_factor_x" = Some sx ∧ j !! "scale_factor_y" = Some sy ∧
    v = ([tx; ty], [sx; sy]) ∧ s' = s.
Proof.
  unfold image_vectors, json_get. unfold_ops.
  destruct (j !! "translation_x") as [tx|]; [|done].
  destruct (j !! "translation_y") as [ty|]; [|done].
  destruct (j !! "scale_factor_x") as [sx|]; [|done].
  destruct (j !! "scale_factor_y") as [sy|]; [|done].
  intros [= <- <-]. eauto 10.
Qed.

Lemma SpatialData_init_Ok table points images images_transform polygons s D s' :
  SpatialData_init table points images images_transform polygons s = (Ok D, s') →
  D = mkSpatialData table points images images_transform polygons ∧ s' = s ∧
  ∃ t, heap s !! table = Some t ∧ region_rows (heap s) t points = Some (n_obs t).
Proof.
  unfold SpatialData_init. unfold_ops.
  destruct (heap s !! table) as [t|]; [|done].
  destruct (region_rows (heap s) t points) as [rows|] eqn:Hrows; [|done].
  case_bool_decide as Hn; [|done]. case_bool_decide; [|done].
  intros [= <- <-]. subst rows. eauto.
Qed.

Lemma build_dataset_Ok inp ls s D s' :
  build_dataset inp ls s = (Ok D, s') →
  ∃ ps A,
    anndata_from_geojson (in_geojson inp) = Ok ps ∧
    to_affine (compose_transformations (make_scale (image_scale_factors ls))
                 (make_translation (image_translation ls))) = Ok A ∧
    D = mkSpatialData (expression ls)
          (<["single_molecule" := single_molecule ls]> {[ "cells" := regions ls ]})
          {[ "rasterized" := in_img inp ]}
          {[ "rasterized" := A ]}
          {[ "anatomical" := ps ]} ∧
    s' = s.
Proof.
  unfold build_dataset. intros H.
  apply bind_Ok_inv in H as (ps & s1 & Hps & H).
  apply bind_Ok_inv in H as (A & s2 & HA & H).
  apply SpatialData_init_Ok in H as (-> & -> & _).
  unfold image_transform, lift in *. injection Hps as Hps <-. injection HA as HA <-.
  eauto 10.
Qed.

Lemma build_layers_Ok inp h f o ls s' :
  build_layers inp (mkState h f o) = (Ok ls, s') →
  ∃ h' sp rr x ct tx ty sx sy,
    s' = mkState h' f o ∧
    obsm (in_cells inp) !! "spatial" = Some sp ∧
    obsm (in_cells inp) !! "region_radius" = Some rr ∧
    length rr = length sp ∧
    X (in_adata inp) = Some x ∧
    obsm (in_adata inp) !! "cell_type" = Some ct ∧
    in_j inp !! "translation_x" = Some tx ∧ in_j inp !! "translation_y" = Some ty ∧
    in_j inp !! "scale_factor_x" = Some sx ∧ in_j inp !! "scale_factor_y" = Some sy ∧
    image_translation ls = [tx; ty] ∧ image_scale_factors ls = [sx; sy] ∧
    h' !! expression ls = Some (expression_of (in_cells inp)) ∧
    h' !! regions ls = Some (regions_of sp rr) ∧
    h' !! single_molecule ls = Some (single_molecule_of (in_adata inp) x ct) ∧
    (∀ l a, h !! l = Some a → h' !! l = Some a).
Proof.
  unfold build_layers. intros H.
  apply bind_Ok_inv in H as (cells & s1 & Hcells & H).
  apply bind_Ok_inv in H as (adata & s2 & Hadata & H).
  apply bind_Ok_inv in H as (m & s3 & Hm & H).
  apply bind_Ok_inv in H as (v & s4 & Hv & H).
  apply bind_Ok_inv in H as (e & s5 & He & H).
  apply bind_Ok_inv in H as (r & s6 & Hr & H).
  injection H as <- <-.
  unfold read_h5ad, new_object in Hcells, Hadata. cbn [heap fs stdout] in *.
  injection Hcells as <- <-. cbn [heap fs stdout] in *. injection Hadata as <- <-.
  set (h1 := <[fresh (dom h) := in_cells inp]> h) in *.
  set (h2 := <[fresh (dom h1) := in_adata inp]> h1) in *.
  assert (h1 !! fresh (dom h) = Some (in_cells inp)) as Hc1 by apply lookup_insert_eq.
  assert (h2 !! fresh (dom h1) = Some (in_adata inp)) as Ha2 by apply lookup_insert_eq.
  pose proof (lookup_insert_fresh h1 _ (in_adata inp) _ Hc1) as Hc2. fold h2 in Hc2.
  apply (make_single_molecule_Ok _ _ _ _ _ _ _ Ha2) in Hm
    as (x & ct & Hx & Hct & _ & _ & -> & ->).
  set (h3 := <[fresh (dom h2) := _]> h2) in *.
  assert (h3 !! fresh (dom h2) = Some (single_molecule_of (in_adata inp) x ct)) as Hm3
    by apply lookup_insert_eq.
  pose proof (lookup_insert_fresh h2 _ (single_molecule_of (in_adata inp) x ct) _ Hc2) as Hc3.
  fold h3 in Hc3.
  apply image_vectors_Ok in Hv as (tx & ty & sx & sy & Htx & Hty & Hsx & Hsy & -> & ->).
  apply (make_expression_Ok _ _ _ _ _ _ _ Hc3) in He as (-> & -> & _ & _).
  set (h4 := <[fresh (dom h3) := _]> h3) in *.
  assert (h4 !! fresh (dom h3) = Some (expression_of (in_cells inp))) as He4
    by apply lookup_insert_eq.
  pose proof (lookup_insert_fresh h3 _ (expression_of (in_cells inp)) _ Hc3) as Hc4.
  pose proof (lookup_insert_fresh h3 _ (expression_of (in_cells inp)) _ Hm3) as Hm4.
  fold h4 in Hc4, Hm4.
  apply (make_regions_Ok _ _ _ _ _ _ _ Hc4) in Hr as (sp & rr & Hsp & Hrr & Hlen & -> & ->).
  exists (<[fresh (dom h4) := regions_of sp rr]> h4), sp, rr, x, ct, tx, ty, sx, sy.
  cbn [expression regions single_molecule image_translation image_scale_factors fst snd].
  repeat split; try done.
  - by apply lookup_insert_fresh.
  - apply lookup_insert_eq.
  - by apply lookup_insert_fresh.
  - intros l a Hl. do 5 apply lookup_insert_fresh. done.
Qed.

(** What a successful [assemble] has done: the three layers and the table
    are in the store of objects, and the dataset holds references to them
    and the reduced transform of the image. *)
Lemma assemble_Ok inp h f o D s' :
  assemble inp (mkState h f o) = (Ok D, s') →
  ∃ ls h' sp rr x ct tx ty sx sy ps,
    s' = mkState h' f o ∧
    obsm (in_cells inp) !! "spatial" = Some sp ∧
    obsm (in_cells inp) !! "region_radius" = Some rr ∧
    X (in_adata inp) = Some x ∧
    obsm (in_adata inp) !! "cell_type" = Some ct ∧
    in_j inp !! "translation_x" = Some tx ∧ in_j inp !! "translation_y" = Some ty ∧
    in_j inp !! "scale_factor_x" = Some sx ∧ in_j inp !! "scale_factor_y" = Some sy ∧
    anndata_from_geojson (in_geojson inp) = Ok ps ∧
    h' !! expression ls = Some (expression_of (in_cells inp)) ∧
    h' !! regions ls = Some (regions_of sp rr) ∧
    h' !! single_molecule ls = Some (single_molecule_of (in_adata inp) x ct) ∧
    D = mkSpatialData (expression ls)
          (<["single_molecule" := single_molecule ls]> {[ "cells" := regions ls ]})
          {[ "rasterized" := in_img inp ]}
          {[ "rasterized" := mkAffine (diagonal_matrix [sx; sy]) [tx; ty] ]}
          {[ "anatomical" := ps ]}.
Proof.
  unfold assemble. intros H.
  apply bind_Ok_inv in H as (ls & s1 & Hls & H).
  apply build_layers_Ok in Hls
    as (h' & sp & rr & x & ct & tx & ty & sx & sy & -> & Hsp & Hrr & _ & Hx & Hct &
        Htx & Hty & Hsx & Hsy & Htr & Hsc & He & Hr & Hm & _).
  apply build_dataset_Ok in H as (ps & A & Hps & HA & -> & ->).
  rewrite Htr, Hsc, to_affine_scale_translation in HA by done.
  injection HA as <-.
  exists ls, h', sp, rr, x, ct, tx, ty, sx, sy, ps. repeat split; done.
Qed.

(** * What the script guarantees *)

(** C1: for all vectors [s], [t] and every coordinate [x] of the same
    dimension, composing the scale [s] with the translation [t] and
    reducing with [to_affine] gives a transform that maps [x] to
    [x * s + t] elementwise, scale first.  The transform the script attaches
    to the image is that one, built from the four fields of the alignment
    record; with translation (5, -3) and scale factors (2, 2) it maps pixel
    (0, 0) to (5, -3) and pixel (1, 1) to (7, -1). *)
Theorem C1_scale_before_translation :
  (∀ s t x : list Qc, length s = length x → length t = length x →
     ∃ A, to_affine (compose_transformations (make_scale s) (make_translation t)) = Ok A ∧
          apply_affine A x = scale_then_translate x s t) ∧
  (∀ inp st D st', assemble inp st = (Ok D, st') →
     ∃ tx ty sx sy A,
       in_j inp !! "translation_x" = Some tx ∧ in_j inp !! "translation_y" = Some ty ∧
       in_j inp !! "scale_factor_x" = Some sx ∧ in_j inp !! "scale_factor_y" = Some sy ∧
       images_transform D !! "rasterized" = Some A ∧
       ∀ px py, apply_affine A [px; py] = [px * sx + tx; py * sy + ty]) ∧
  (∀ inp st D st',
     in_j inp !! "translation_x" = Some (qz 5) →
     in_j inp !! "translation_y" = Some (qz (-3)) →
     in_j inp !! "scale_factor_x" = Some (qz 2) →
     in_j inp !! "scale_factor_y" = Some (qz 2) →
     assemble inp st = (Ok D, st') →
     ∃ A, images_transform D !! "rasterized" = Some A ∧
          apply_affine A [qz 0; qz 0] = [qz 5; qz (-3)] ∧
          apply_affine A [qz 1; qz 1] = [qz 7; qz (-1)]).
Proof.
  assert (∀ inp st D st', assemble inp st = (Ok D, st') →
     ∃ tx ty sx sy A,
       in_j inp !! "translation_x" = Some tx ∧ in_j inp !! "translation_y" = Some ty ∧
       in_j inp !! "scale_factor_x" = Some sx ∧ in_j inp !! "scale_factor_y" = Some sy ∧
       images_transform D !! "rasterized" = Some A ∧
       ∀ px py, apply_affine A [px; py] = [px * sx + tx; py * sy + ty]) as Hscript.
  { intros inp [h f o] D st' H.
    apply assemble_Ok in H
      as (ls & h' & sp & rr & x & ct & tx & ty & sx & sy & ps & _ & _ & _ & _ & _ &
          Htx & Hty & Hsx & Hsy & _ & _ & _ & _ & ->).
    exists tx, ty, sx, sy, (mkAffine (diagonal_matrix [sx; sy]) [tx; ty]).
    repeat split; try done.
    intros px py. by rewrite apply_scale_translation. }
  split; [|split; [exact Hscript|]].
  - intros s t x Hs Ht. eexists. split.
    + apply to_affine_scale_translation. congruence.
    + by apply apply_scale_translation.
  - intros inp st D st' Htx Hty Hsx Hsy H.
    destruct (Hscript _ _ _ _ H) as (tx & ty & sx & sy & A & Htx' & Hty' & Hsx' & Hsy' & HA & Hmap).
    assert (tx = qz 5) as -> by congruence. assert (ty = qz (-3)) as -> by congruence.
    assert (sx = qz 2) as -> by congruence. assert (sy = qz 2) as -> by congruence.
    exists A. split; [done|]. rewrite !Hmap.
    split; repeat f_equal; apply Qc_is_canon; reflexivity.
Qed.

Lemma C1_scale_before_translation_witness :
  (∃ A, to_affine (compose_transformations (make_scale [qz 2; qz 2])
                     (make_translation [qz 5; qz (-3)])) = Ok A ∧
        apply_affine A [qz 1; qz 1]
        = scale_then_translate [qz 1; qz 1] [qz 2; qz 2] [qz 5; qz (-3)]) ∧
  (∃ D st', assemble example_inputs empty_state = (Ok D, st') ∧
     ∃ A, images_transform D !! "rasterized" = Some A ∧
          apply_affine A [qz 0; qz 0] = [qz 5; qz (-3)] ∧
          apply_affine A [qz 1; qz 1] = [qz 7; qz (-1)]).
Proof.
  split.
  - apply (proj1 C1_scale_before_translation); reflexivity.
  - destruct (assemble example_inputs empty_state) as [[D|e] st'] eqn:H.
    + exists D, st'. split; [reflexivity|].
      apply (proj2 (proj2 C1_scale_before_translation) example_inputs empty_state D st');
        [vm_compute; reflexivity .. | exact H].
    + vm_compute in H. discriminate H.
Defined.

Lemma wf_obsm a k v : wf_AnnData a → obsm a !! k = Some v → length v = n_obs a.
Proof. intros (_ & _ & H) Hk. exact (H k v Hk). Qed.

Lemma wf_X a x : wf_AnnData a → X a = Some x → length x = n_obs a.
Proof. intros (H & _ & _) Hx. by rewrite Hx in H. Qed.

(** C2: in every dataset the script assembles, the table and the point
    layer its [mapping_info] names as region, "cells", have the same
    number of rows, and the instance column [cell_id] of the table is
    [range(len(table))], row [i] holding [i]. *)
Theorem C2_table_region_alignment inp st D st' :
  wf_AnnData (in_cells inp) →
  assemble inp st = (Ok D, st') →
  ∃ t info l r,
    heap st' !! table D = Some t ∧
    uns t !! "mapping_info" = Some info ∧
    info !! "regions" = Some "cells" ∧
    info !! "instance_key" = Some "cell_id" ∧
    points D !! "cells" = Some l ∧
    heap st' !! l = Some r ∧
    n_obs t = n_obs r ∧
    obs t !! "cell_id" = Some (arange (n_obs t)) ∧
    length (arange (n_obs t)) = n_obs r ∧
    ∀ i, (i < n_obs r)%nat → arange (n_obs t) !! i = Some (SInt (Z.of_nat i)).
Proof.
  intros Hwf H. destruct st as [h f o].
  apply assemble_Ok in H
    as (ls & h' & sp & rr & x & ct & tx & ty & sx & sy & ps & -> & Hsp & Hrr & _ & _ &
        _ & _ & _ & _ & _ & He & Hr & _ & ->).
  pose proof (wf_obsm _ _ _ Hwf Hsp) as Hlen.
  exists (expression_of (in_cells inp)), mapping_info, (regions ls), (regions_of sp rr).
  cbn [heap table points expression_of regions_of n_obs obs uns].
  repeat split; try done.
  - apply lookup_insert_eq.
  - apply lookup_insert_eq.
  - rewrite length_arange. done.
  - intros i Hi. apply arange_lookup. lia.
Qed.

Lemma C2_table_region_alignment_witness :
  ∃ D st', assemble example_inputs empty_state = (Ok D, st') ∧
    ∃ t l r, heap st' !! table D = Some t ∧ points D !! "cells" = Some l ∧
      heap st' !! l = Some r ∧ n_obs t = n_obs r ∧
      obs t !! "cell_id" = Some (arange (n_obs t)).
Proof.
  destruct (assemble example_inputs empty_state) as [[D|e] st'] eqn:H.
  - exists D, st'. split; [reflexivity|].
    destruct (C2_table_region_alignment example_inputs empty_state D st')
      as (t & info & l & r & Ht & _ & _ & _ & Hl & Hr & Hn & Hid & _).
    + refine (bool_decide_unpack (wf_AnnData example_cells) _). vm_compute. exact I.
    + exact H.
    + exists t, l, r. auto.
  - vm_compute in H. discriminate H.
Defined.

(** C5: from a per-cell table [c] with its arrays [spatial] and
    [region_radius], lines 34-44 build two new objects.  (1) The table is
    [c] without exactly these two arrays: every other array, [X], the
    shape, every other column and every other entry of [uns] are those of
    [c].  Attached to it are the record [mapping_info], which names the
    region "cells", the region column [regions_id] and the instance column
    [cell_id], the column [regions_id] holding "cells" in every row, and
    the column [cell_id].  (2) The point layer holds only the two arrays
    removed from the table, with no feature column, no [X], no other
    annotation, and as many rows as the table.  Its only column is
    [cell_id], the same column as in the table, with one entry per row and
    [i] in row [i]. *)
Theorem C5_table_and_region_layer cells c sp rr st :
  heap st !! cells = Some c →
  wf_AnnData c →
  obsm c !! "spatial" = Some sp →
  obsm c !! "region_radius" = Some rr →
  ∃ e r st' t p,
    (e ← make_expression cells; r ← make_regions cells; mret (e, r)) st
      = (Ok (e, r), st') ∧
    e ≠ r ∧
    heap st' !! e = Some t ∧ t = expression_of c ∧
    heap st' !! r = Some p ∧ p = regions_of sp rr ∧
    obsm t = delete "spatial" (delete "region_radius" (obsm c)) ∧
    X t = X c ∧ n_vars t = n_vars c ∧ n_obs t = n_obs c ∧
    uns t !! "mapping_info" = Some mapping_info ∧
    obs t !! "regions_id" = Some (replicate (n_obs c) (SStr "cells")) ∧
    dom (obsm p) = {[ "spatial"; "region_radius" ]} ∧
    obsm p !! "spatial" = Some sp ∧
    obsm p !! "region_radius" = Some rr ∧
    n_vars p = 0%nat ∧
    n_obs p = n_obs t ∧
    obs p !! "cell_id" = Some (arange (n_obs t)) ∧
    obs t !! "cell_id" = Some (arange (n_obs t)) ∧
    (* the table, entry by entry *)
    obsm t !! "spatial" = None ∧
    obsm t !! "region_radius" = None ∧
    (∀ k, k ≠ "spatial" → k ≠ "region_radius" → obsm t !! k = obsm c !! k) ∧
    (∀ k, k ≠ "cell_id" → k ≠ "regions_id" → obs t !! k = obs c !! k) ∧
    (∀ k, k ≠ "mapping_info" → uns t !! k = uns c !! k) ∧
    (∃ info,
       uns t !! "mapping_info" = Some info ∧
       info !! "regions" = Some "cells" ∧
       info !! "regions_key" = Some "regions_id" ∧
       info !! "instance_key" = Some "cell_id" ∧
       dom info = {[ "regions"; "regions_key"; "instance_key" ]}) ∧
    (∃ col,
       obs t !! "regions_id" = Some col ∧
       length col = n_obs t ∧
       ∀ i, (i < n_obs t)%nat → col !! i = Some (SStr "cells")) ∧
    (* the point layer, entry by entry *)
    X p = None ∧
    uns p = ∅ ∧
    dom (obs p) = {[ "cell_id" ]} ∧
    length sp = n_obs p ∧
    length rr = n_obs p ∧
    (∃ ids,
       obs p !! "cell_id" = Some ids ∧
       obs t !! "cell_id" = Some ids ∧
       length ids = n_obs t ∧
       ∀ i, (i < n_obs t)%nat → ids !! i = Some (SInt (Z.of_nat i))).
Proof.
  intros Hc Hwf Hsp Hrr. destruct st as [h f o]. cbn [heap] in Hc.
  pose proof (wf_obsm _ _ _ Hwf Hsp) as Hlsp.
  pose proof (wf_obsm _ _ _ Hwf Hrr) as Hlrr.
  set (e := fresh (dom h)).
  set (h1 := <[e := expression_of c]> h).
  exists e, (fresh (dom h1)), (mkState (<[fresh (dom h1) := regions_of sp rr]> h1) f o),
    (expression_of c), (regions_of sp rr).
  assert (h1 !! e = Some (expression_of c)) as He by apply lookup_insert_eq.
  assert (h1 !! cells = Some c) as Hc1 by (by apply lookup_insert_fresh).
  split.
  { erewrite bind_Ok; [|rewrite (make_expression_run _ _ _ _ _ Hc), Hrr, Hsp; reflexivity].
    erewrite bind_Ok; [reflexivity|].
    rewrite (make_regions_run _ _ _ _ _ Hc1), Hsp, Hrr. cbv zeta.
    rewrite bool_decide_true by congruence. reflexivity. }
  cbn [heap expression_of regions_of n_obs n_vars X obs obsm uns].
  split_and!; try done.
  - intros E. pose proof (fresh_heap h1) as Hf. rewrite <- E in Hf. congruence.
  - by apply lookup_insert_fresh.
  - apply lookup_insert_eq.
  - apply lookup_insert_eq.
  - rewrite lookup_insert_ne by done. apply lookup_insert_eq.
  - rewrite Hlsp. apply lookup_singleton_eq.
  - apply lookup_insert_eq.
  - apply lookup_delete_eq.
  - rewrite lookup_delete_ne by done. apply lookup_delete_eq.
  - intros k Hk1 Hk2. by rewrite !lookup_delete_ne.
  - intros k Hk1 Hk2. by rewrite !lookup_insert_ne.
  - intros k Hk. by rewrite lookup_insert_ne.
  - exists mapping_info. split; [apply lookup_insert_eq|].
    unfold mapping_info. split_and!; [by vm_compute ..|].
    rewrite !dom_insert_L, dom_singleton_L. set_solver.
  - exists (replicate (n_obs c) (SStr "cells")).
    split; [rewrite lookup_insert_ne by done; apply lookup_insert_eq|].
    split; [apply length_replicate|].
    intros i Hi. by apply lookup_replicate_2.
  - congruence.
  - exists (arange (n_obs c)). rewrite Hlsp.
    split; [apply lookup_singleton_eq|]. split; [apply lookup_insert_eq|].
    split; [apply length_arange|]. intros i Hi. by apply arange_lookup.
Qed.

Lemma C5_table_and_region_layer_witness :
  ∃ e r st' t p ids info,
    (e ← make_expression 0%nat; r ← make_regions 0%nat; mret (e, r)) example_state
      = (Ok (e, r), st') ∧
    heap st' !! e = Some t ∧
    heap st' !! r = Some p ∧
    n_obs p = 3%nat ∧
    obs t !! "cell_id" = Some ids ∧
    obs p !! "cell_id" = Some ids ∧
    ids !! 0%nat = Some (SInt 0) ∧ ids !! 1%nat = Some (SInt 1) ∧
    ids !! 2%nat = Some (SInt 2) ∧
    uns t !! "mapping_info" = Some info ∧
    info !! "regions" = Some "cells" ∧
    info !! "instance_key" = Some "cell_id".
Proof.
  destruct (C5_table_and_region_layer 0%nat example_cells
              [num_row [0; 0]; num_row [1; 1]; num_row [2; 2]]%Z
              [num_row [2]; num_row [4]; num_row [3]]%Z example_state)
    as (e & r & st' & t & p & Hrun & _ & Ht & Hteq & Hp & Hpeq & _ & _ & _ & Hn & _ &
        _ & _ & _ & _ & _ & Hnp & _ & _ & _ & _ & _ & _ & _ &
        (info & Hinfo & Hreg & _ & Hkey & _) & _ & _ & _ & _ & _ & _ &
        (ids & Hidp & Hidt & _ & Hid)).
  - vm_compute. reflexivity.
  - refine (bool_decide_unpack (wf_AnnData example_cells) _). vm_compute. exact I.
  - vm_compute. reflexivity.
  - vm_compute. reflexivity.
  - exists e, r, st', t, p, ids, info.
    assert (n_obs t = 3%nat) as Hn3 by (rewrite Hn; reflexivity).
    split_and!; try done.
    + by rewrite Hnp.
    + apply (Hid 0%nat). rewrite Hn3. lia.
    + apply (Hid 1%nat). rewrite Hn3. lia.
    + apply (Hid 2%nat). rewrite Hn3. lia.
Defined.

(** C8: from a molecule table [a] with the coordinate array [X] and the
    label array [cell_type], lines 26-28 build a point layer with zero
    feature columns and as many rows as [a], the coordinates under
    [spatial] and the labels under [spatial_type], each with one row per
    row of the layer; [a] itself is left as it was. *)
Theorem C8_single_molecule_layer adata a x ct st :
  heap st !! adata = Some a →
  wf_AnnData a →
  X a = Some x →
  obsm a !! "cell_type" = Some ct →
  ∃ m st' p,
    make_single_molecule adata st = (Ok m, st') ∧
    heap st' !! m = Some p ∧ p = single_molecule_of a x ct ∧
    n_vars p = 0%nat ∧
    X p = None ∧
    obs p = ∅ ∧
    n_obs p = n_obs a ∧
    dom (obsm p) = {[ "spatial"; "spatial_type" ]} ∧
    obsm p !! "spatial" = Some x ∧
    obsm p !! "spatial_type" = Some ct ∧
    length x = n_obs p ∧
    length ct = n_obs p ∧
    m ≠ adata ∧
    heap st' !! adata = Some a.
Proof.
  intros Ha Hwf Hx Hct. destruct st as [h f o]. cbn [heap] in Ha.
  pose proof (wf_X _ _ Hwf Hx) as Hlx.
  pose proof (wf_obsm _ _ _ Hwf Hct) as Hlct.
  exists (fresh (dom h)),
    (mkState (<[fresh (dom h) := single_molecule_of a x ct]> h) f o),
    (single_molecule_of a x ct).
  split.
  { rewrite (make_single_molecule_run _ _ _ _ _ Ha), Hx. cbv zeta.
    rewrite bool_decide_true, Hct, bool_decide_true by done. reflexivity. }
  cbn [heap single_molecule_of n_obs n_vars X obs obsm uns].
  repeat split; try done.
  - apply lookup_insert_eq.
  - intros E. pose proof (fresh_heap h) as Hf. rewrite E in Hf. congruence.
  - by apply lookup_insert_fresh.
Qed.

Lemma C8_single_molecule_layer_witness :
  ∃ m st',
    make_single_molecule 1%nat example_state = (Ok m, st') ∧
    n_obs <$> heap st' !! m = Some 2%nat ∧
    n_vars <$> heap st' !! m = Some 0%nat.
Proof.
  destruct (C8_single_molecule_layer 1%nat example_adata
              [num_row [7; 8]; num_row [9; 10]]%Z
              [[SStr "neuron"]; [SStr "glia"]] example_state)
    as (m & st' & p & Hrun & Hp & -> & _).
  - vm_compute. reflexivity.
  - refine (bool_decide_unpack (wf_AnnData example_adata) _). vm_compute. exact I.
  - vm_compute. reflexivity.
  - vm_compute. reflexivity.
  - exists m, st'. rewrite Hp. auto.
Defined.

(** C9: in every dataset the script assembles, the point layer "cells"
    has a column [cell_id] of its own; it has one entry per row, it is the
    same column as the [cell_id] of the table, and row [i] holds [i] on
    both sides. *)
Theorem C9_join_key_on_both_sides inp st D st' :
  wf_AnnData (in_cells inp) →
  assemble inp st = (Ok D, st') →
  ∃ l r t cr ct,
    points D !! "cells" = Some l ∧
    heap st' !! l = Some r ∧
    heap st' !! table D = Some t ∧
    l ≠ table D ∧
    obs r !! "cell_id" = Some cr ∧
    obs t !! "cell_id" = Some ct ∧
    length cr = n_obs r ∧
    length ct = n_obs t ∧
    n_obs r = n_obs t ∧
    cr = ct ∧
    ∀ i, (i < n_obs r)%nat →
      cr !! i = Some (SInt (Z.of_nat i)) ∧ ct !! i = Some (SInt (Z.of_nat i)).
Proof.
  intros Hwf H. destruct st as [h f o].
  apply assemble_Ok in H
    as (ls & h' & sp & rr & x & ct & tx & ty & sx & sy & ps & -> & Hsp & Hrr & _ & _ &
        _ & _ & _ & _ & _ & He & Hr & _ & ->).
  pose proof (wf_obsm _ _ _ Hwf Hsp) as Hlen.
  exists (regions ls), (regions_of sp rr), (expression_of (in_cells inp)),
    (arange (length sp)), (arange (n_obs (in_cells inp))).
  cbn [heap table points expression_of regions_of n_obs obs].
  rewrite !length_arange, Hlen.
  repeat split; try done.
  - intros E. rewrite E, He in Hr.
    assert (uns (expression_of (in_cells inp)) !! "mapping_info"
            = uns (regions_of sp rr) !! "mapping_info") as Hu by congruence.
    cbn [expression_of regions_of uns] in Hu.
    rewrite lookup_insert_eq, lookup_empty in Hu. done.
  - apply lookup_insert_eq.
  - by apply arange_lookup.
  - by apply arange_lookup.
Qed.

Lemma C9_join_key_on_both_sides_witness :
  ∃ D st' l r t,
    assemble example_inputs empty_state = (Ok D, st') ∧
    points D !! "cells" = Some l ∧ heap st' !! l = Some r ∧
    heap st' !! table D = Some t ∧
    obs r !! "cell_id" = obs t !! "cell_id".
Proof.
  destruct (assemble example_inputs empty_state) as [[D|e] st'] eqn:H.
  - destruct (C9_join_key_on_both_sides example_inputs empty_state D st')
      as (l & r & t & cr & ct & Hl & Hr & Ht & _ & Hcr & Hct & _ & _ & _ & Heq & _).
    + refine (bool_decide_unpack (wf_AnnData example_cells) _). vm_compute. exact I.
    + exact H.
    + exists D, st', l, r, t. rewrite Hcr, Hct, Heq. auto.
  - vm_compute in H. discriminate H.
Defined.

(** C10: building the table leaves the object read from [cells.h5ad] as
    it was.  The two arrays are deleted from a copy, a new object; every
    object that existed before is unchanged, so [cells] still has its
    [spatial] and [region_radius] arrays, and the region layer is then built
    from them. *)
Theorem C10_table_built_on_a_copy cells c st e st' :
  heap st !! cells = Some c →
  make_expression cells st = (Ok e, st') →
  e ≠ cells ∧
  heap st !! e = None ∧
  heap st' !! cells = Some c ∧
  (∀ l, l ≠ e → heap st' !! l = heap st !! l) ∧
  fs st' = fs st ∧
  (∃ sp rr, obsm c !! "spatial" = Some sp ∧ obsm c !! "region_radius" = Some rr ∧
     ∃ t, heap st' !! e = Some t ∧
       obsm t !! "spatial" = None ∧ obsm t !! "region_radius" = None ∧
       (length rr = length sp →
        ∃ r st'', make_regions cells st' = (Ok r, st'') ∧
          heap st'' !! r = Some (regions_of sp rr) ∧
          heap st'' !! cells = Some c)).
Proof.
  intros Hc H. destruct st as [h f o]. cbn [heap fs] in *.
  apply (make_expression_Ok _ _ _ _ _ _ _ Hc) in H as (-> & -> & [rr Hrr] & [sp Hsp]).
  cbn [heap fs].
  assert (fresh (dom h) ≠ cells) as Hne.
  { intros E. pose proof (fresh_heap h) as Hf. rewrite E in Hf. congruence. }
  split; [done|]. split; [apply fresh_heap|].
  split; [by apply lookup_insert_fresh|].
  split; [intros l Hl; by rewrite lookup_insert_ne|].
  split; [done|].
  exists sp, rr. split; [done|]. split; [done|].
  exists (expression_of c). split; [apply lookup_insert_eq|].
  cbn [expression_of obsm].
  split; [apply lookup_delete_eq|].
  split; [rewrite lookup_delete_ne by done; apply lookup_delete_eq|].
  intros Hlen.
  set (h1 := <[fresh (dom h) := expression_of c]> h).
  assert (h1 !! cells = Some c) as Hc1 by (by apply lookup_insert_fresh).
  exists (fresh (dom h1)), (mkState (<[fresh (dom h1) := regions_of sp rr]> h1) f o).
  split.
  - rewrite (make_regions_run _ _ _ _ _ Hc1), Hsp, Hrr. cbv zeta.
    rewrite bool_decide_true by done. reflexivity.
  - cbn [heap]. split; [apply lookup_insert_eq|by apply lookup_insert_fresh].
Qed.

Lemma C10_table_built_on_a_copy_witness :
  ∃ e st',
    make_expression 0%nat example_state = (Ok e, st') ∧
    heap st' !! 0%nat = Some example_cells ∧
    is_Some (obsm example_cells !! "spatial") ∧
    is_Some (obsm example_cells !! "region_radius").
Proof.
  destruct (make_expression 0%nat example_state) as [[e|err] st'] eqn:H.
  - destruct (C10_table_built_on_a_copy 0%nat example_cells example_state e st')
      as (_ & _ & Hc & _ & _ & sp & rr & Hsp & Hrr & _).
    + vm_compute. reflexivity.
    + exact H.
    + exists e, st'. rewrite Hsp, Hrr. eauto.
  - vm_compute in H. discriminate H.
Defined.

(** ** What the script does not touch *)

Lemma keeps_files_bind {A B} (m : M A) (k : A → M B) :
  keeps_files m → (∀ a, keeps_files (k a)) → keeps_files (m ≫= k).
Proof.
  intros Hm Hk s. unfold mbind, M_bind.
  specialize (Hm s). destruct (m s) as [[a|e] s1]; cbn [snd] in *; [|done].
  destruct (Hk a s1) as [-> ->]. done.
Qed.

Create HintDb keeps_files.

Ltac keeps_files :=
  repeat first
    [ apply keeps_files_bind
    | match goal with
      | |- ∀ _, _ => intros ?
      | |- keeps_files (match ?x with _ => _ end) => destruct x
      end
    | solve [auto with keeps_files]
    | by intros ? ].

Lemma keeps_files_deref l : keeps_files (deref l).
Proof. intros s. unfold deref. by destruct (heap s !! l). Qed.
#[local] Hint Resolve keeps_files_deref : keeps_files.

Lemma keeps_files_new_object a : keeps_files (new_object a).
Proof. done. Qed.
#[local] Hint Resolve keeps_files_new_object : keeps_files.

Lemma keeps_files_obsm_get l k : keeps_files (obsm_get l k).
Proof. unfold obsm_get. keeps_files. Qed.

Lemma keeps_files_obsm_set l k v : keeps_files (obsm_set l k v).
Proof. unfold obsm_set. keeps_files. Qed.

Lemma keeps_files_obsm_del l k : keeps_files (obsm_del l k).
Proof. unfold obsm_del. keeps_files. Qed.

Lemma keeps_files_obs_set l k c : keeps_files (obs_set l k c).
Proof. unfold obs_set. keeps_files. Qed.

Lemma keeps_files_obs_fill l k v : keeps_files (obs_fill l k v).
Proof. unfold obs_fill. keeps_files. Qed.

Lemma keeps_files_uns_set l k d : keeps_files (uns_set l k d).
Proof. unfold uns_set. keeps_files. Qed.

Lemma keeps_files_ad_len l : keeps_files (ad_len l).
Proof. unfold ad_len. keeps_files. Qed.

Lemma keeps_files_ad_X l : keeps_files (ad_X l).
Proof. unfold ad_X. keeps_files. Qed.

Lemma keeps_files_ad_copy l : keeps_files (ad_copy l).
Proof. unfold ad_copy. keeps_files. Qed.

Lemma keeps_files_json_get j k : keeps_files (json_get j k).
Proof. unfold json_get. keeps_files. Qed.

#[local] Hint Resolve keeps_files_obsm_get keeps_files_obsm_set keeps_files_obsm_del
  keeps_files_obs_set keeps_files_obs_fill keeps_files_uns_set keeps_files_ad_len
  keeps_files_ad_X keeps_files_ad_copy keeps_files_json_get : keeps_files.

Lemma keeps_files_build_layers inp : keeps_files (build_layers inp).
Proof.
  unfold build_layers, make_single_molecule, image_vectors, make_expression,
    make_regions, read_h5ad, AnnData_shape.
  keeps_files.
Qed.

Lemma keeps_files_build_dataset inp ls : keeps_files (build_dataset inp ls).
Proof.
  unfold build_dataset, image_transform, lift, SpatialData_init, raise.
  keeps_files.
Qed.

Lemma keeps_files_assemble inp : keeps_files (assemble inp).
Proof.
  unfold assemble. apply keeps_files_bind;
    [apply keeps_files_build_layers|apply keeps_files_build_dataset].
Qed.

(** When the dataset is not assembled, the script stops there. *)
Lemma to_zarr_aborts sd_write inp base st e s1 :
  assemble inp st = (Err e, s1) → to_zarr sd_write inp base st = (Err e, s1).
Proof. intros H. unfold to_zarr. by apply bind_Err. Qed.

(** ** The destination of the write *)

Lemma remove_tree_under (p : path) (f : gmap path node) (q : path) :
  p `prefix_of` q → remove_tree p f !! q = None.
Proof.
  intros Hpq. unfold remove_tree. apply map_lookup_filter_None. right.
  intros x _ Hn. by apply Hn.
Qed.

Lemma remove_tree_outside (p : path) (f : gmap path node) (q : path) :
  ¬ p `prefix_of` q → remove_tree p f !! q = f !! q.
Proof.
  intros Hpq. unfold remove_tree.
  destruct (f !! q) as [x|] eqn:Hq.
  - apply map_lookup_filter_Some. done.
  - apply map_lookup_filter_None. by left.
Qed.

(** What is left after removing the tree at [p] depends only on the
    entries outside [p]. *)
Lemma remove_tree_agree (p : path) (f1 f2 : gmap path node) :
  (∀ q : path, ¬ p `prefix_of` q → f1 !! q = f2 !! q) →
  remove_tree p f1 = remove_tree p f2.
Proof.
  intros Hout. apply map_eq. intros q.
  destruct (decide (p `prefix_of` q)) as [Hpq|Hpq].
  - by rewrite !remove_tree_under.
  - rewrite !remove_tree_outside by done. by apply Hout.
Qed.

Lemma persist_existing sd_write sdata p st :
  fs st !! p = Some Dir →
  persist sd_write sdata p st
  = write sd_write sdata p (mkState (heap st) (remove_tree p (fs st)) (stdout st)).
Proof.
  intros Hp. unfold persist, path_exists, rmtree, mbind, M_bind.
  rewrite bool_decide_true by (by rewrite Hp). rewrite Hp. done.
Qed.

(** C4: when a store, a directory, exists at the destination, lines 74-76
    run the writer on the file system from which the whole tree at the
    destination has been removed: no entry at or under the destination is
    left when the writer starts, every entry elsewhere is as it was, and
    the outcome is the same whatever the earlier store contained, so
    nothing of it is merged into the new store. *)
Theorem C4_destructive_overwrite
    (sd_write : SpatialData → gmap loc AnnData → path → gmap path node →
                result unit * gmap path node)
    (sdata : SpatialData) (p : path) (st : state) :
  fs st !! p = Some Dir →
  persist sd_write sdata p st
    = write sd_write sdata p (mkState (heap st) (remove_tree p (fs st)) (stdout st)) ∧
  (∀ q, p `prefix_of` q → remove_tree p (fs st) !! q = None) ∧
  (∀ q, ¬ p `prefix_of` q → remove_tree p (fs st) !! q = fs st !! q) ∧
  (∀ st2,
     heap st2 = heap st → stdout st2 = stdout st →
     fs st2 !! p = Some Dir →
     (∀ q, ¬ p `prefix_of` q → fs st2 !! q = fs st !! q) →
     persist sd_write sdata p st2 = persist sd_write sdata p st).
Proof.
  intros Hp. split; [by apply persist_existing|].
  split; [intros q; apply remove_tree_under|].
  split; [intros q; apply remove_tree_outside|].
  intros st2 Hh Ho Hp2 Hout.
  rewrite !persist_existing by done.
  by rewrite Hh, Ho, (remove_tree_agree p (fs st2) (fs st)).
Qed.

Lemma C4_destructive_overwrite_witness :
  let p := ["merfish"; "data.zarr"] in
  let sdata := mkSpatialData 0%nat {[ "cells" := 1%nat ]} ∅ ∅ ∅ in
  let st' := (persist write_store sdata p example_mismatch).2 in
  fs st' !! (p ++ ["points"; "nuclei"]) = None ∧
  fs st' !! (p ++ ["points"; "cells"]) = Some (File "points") ∧
  fs st' !! ["merfish"; "data"] = Some Dir.
Proof.
  intros p sdata st'.
  destruct (C4_destructive_overwrite write_store sdata p example_mismatch)
    as (Hrun & Hgone & Hkept & _).
  - vm_compute. reflexivity.
  - subst st'. rewrite Hrun. vm_compute. auto.
Defined.

(** ** Failing assembly *)

Lemma polygon_of_geometry_Err g e :
  polygon_of_geometry g = Err e → e = ParseError.
Proof.
  unfold polygon_of_geometry. case_bool_decide; [|congruence].
  destruct (g_coordinates g) as [|ring [|ring' rings]]; congruence.
Qed.

Lemma polygon_of_geometry_Ok g p :
  polygon_of_geometry g = Ok p →
  g_type g = "Polygon" ∧ length (g_coordinates g) = 1%nat.
Proof.
  unfold polygon_of_geometry. case_bool_decide; [|done].
  by destruct (g_coordinates g) as [|ring [|ring' rings]].
Qed.

Lemma anndata_from_geojson_Err doc e :
  anndata_from_geojson doc = Err e → e = ParseError.
Proof.
  induction doc as [|g doc IH]; simpl; [done|].
  destruct (polygon_of_geometry g) as [p|e'] eqn:Hg.
  - destruct (anndata_from_geojson doc) as [ps|e'']; [done|].
    intros [= <-]. by apply IH.
  - intros [= <-]. by eapply polygon_of_geometry_Err.
Qed.

(** A document with a geometry that is not a simple polygon is refused. *)
Lemma anndata_from_geojson_strict doc g :
  g ∈ doc →
  g_type g ≠ "Polygon" ∨ length (g_coordinates g) ≠ 1%nat →
  anndata_from_geojson doc = Err ParseError.
Proof.
  intros Hin Hbad.
  destruct (anndata_from_geojson doc) as [ps|e] eqn:Hdoc.
  - exfalso. revert ps Hdoc. induction Hin as [g doc|g g' doc Hin IH]; simpl; intros ps.
    + destruct (polygon_of_geometry g) as [p|] eqn:Hg; [|done].
      apply polygon_of_geometry_Ok in Hg as [??]. intros _. by destruct Hbad.
    + destruct (polygon_of_geometry g'); [|done].
      destruct (anndata_from_geojson doc) as [ps'|]; [|done].
      intros _. by apply (IH Hbad ps').
  - f_equal. by eapply anndata_from_geojson_Err.
Qed.

(** C6: when the geometry document holds a geometry whose type tag is not
    "Polygon" or that does not have exactly one ring, reading the document
    fails with a [ParseError]; the script then ends with an exception
    without a dataset, with nothing printed and the file system as it was,
    and the exception is the [ParseError] whenever the layers built before
    the document is read succeeded. *)
Theorem C6_polygon_parse_strictness
    (sd_write : SpatialData → gmap loc AnnData → path → gmap path node →
                result unit * gmap path node)
    (inp : inputs) (base : path) (st : state) (g : geometry) :
  g ∈ in_geojson inp →
  g_type g ≠ "Polygon" ∨ length (g_coordinates g) ≠ 1%nat →
  anndata_from_geojson (in_geojson inp) = Err ParseError ∧
  (∀ ls s1, build_layers inp st = (Ok ls, s1) →
     build_dataset inp ls s1 = (Err ParseError, s1) ∧
     assemble inp st = (Err ParseError, s1) ∧
     to_zarr sd_write inp base st = (Err ParseError, s1)) ∧
  (∃ e s1,
     assemble inp st = (Err e, s1) ∧
     to_zarr sd_write inp base st = (Err e, s1) ∧
     fs s1 = fs st ∧ stdout s1 = stdout st).
Proof.
  intros Hin Hbad.
  pose proof (anndata_from_geojson_strict _ _ Hin Hbad) as Hdoc.
  assert (∀ ls s1, build_layers inp st = (Ok ls, s1) →
            build_dataset inp ls s1 = (Err ParseError, s1) ∧
            assemble inp st = (Err ParseError, s1)) as Hstop.
  { intros ls s1 Hls.
    assert (build_dataset inp ls s1 = (Err ParseError, s1)) as Hds.
    { unfold build_dataset. apply bind_Err. unfold lift. by rewrite Hdoc. }
    split; [done|]. unfold assemble. by rewrite (bind_Ok _ _ _ _ _ Hls). }
  split; [done|]. split.
  - intros ls s1 Hls. destruct (Hstop _ _ Hls) as [Hds Has].
    repeat split; try done. by apply to_zarr_aborts.
  - destruct (keeps_files_assemble inp st) as [Hfs Hout].
    destruct (build_layers inp st) as [[ls|e] s1] eqn:Hls.
    + destruct (Hstop _ _ eq_refl) as [_ Has]. rewrite Has in Hfs, Hout.
      exists ParseError, s1. repeat split; try done. by apply to_zarr_aborts.
    + assert (assemble inp st = (Err e, s1)) as Has by (by apply bind_Err).
      rewrite Has in Hfs, Hout.
      exists e, s1. repeat split; try done. by apply to_zarr_aborts.
Qed.

Lemma C6_polygon_parse_strictness_witness :
  let st := mkState ∅ example_files [] in
  anndata_from_geojson example_bad_geojson = Err ParseError ∧
  ∃ s1, to_zarr write_store example_bad_inputs ["merfish"] st = (Err ParseError, s1) ∧
    fs s1 = example_files ∧ stdout s1 = [].
Proof.
  intros st.
  destruct (C6_polygon_parse_strictness write_store example_bad_inputs ["merfish"] st
              (mkGeometry "LineString" "border" [[[qz 0; qz 0]; [qz 1; qz 1]]]))
    as (Hdoc & Hrun & e & s1 & _ & Hz & Hfs & Hout).
  - unfold example_bad_inputs, example_bad_geojson, example_geojson. cbn [in_geojson app].
    apply list_elem_of_In. right. left. reflexivity.
  - left. vm_compute. discriminate.
  - split; [exact Hdoc|].
    exists s1. split; [|split; [exact Hfs|exact Hout]].
    destruct (build_layers example_bad_inputs st) as [[ls|e'] s2] eqn:Hls.
    + destruct (Hrun ls s2 eq_refl) as (_ & _ & Hz').
      rewrite Hz' in Hz. injection Hz as <- <-. exact Hz'.
    + vm_compute in Hls. discriminate Hls.
Defined.

(** C7: when the table names a point layer as its region and the two have
    different numbers of rows, the constructor of the dataset fails with a
    [ConsistencyError]; no dataset is returned and no object is changed, so
    neither side is truncated or padded.  In the script, where the table and
    the layer "cells" are built by lines 34-44, such a mismatch ends the run
    with that exception before anything is printed, removed or written. *)
Theorem C7_row_count_mismatch
    (tbl : loc) (pts : gmap string loc) (imgs : gmap string image)
    (trs : gmap string AffineTransform) (polys : gmap string (list polygon))
    (st : state) (t : AnnData) (info : gmap string string) (region : string)
    (l : loc) (r : AnnData) :
  heap st !! tbl = Some t →
  uns t !! "mapping_info" = Some info →
  info !! "regions" = Some region →
  pts !! region = Some l →
  heap st !! l = Some r →
  n_obs t ≠ n_obs r →
  SpatialData_init tbl pts imgs trs polys st = (Err ConsistencyError, st) ∧
  (∀ sd_write inp base s0 ls ps,
     build_layers inp s0 = (Ok ls, st) →
     anndata_from_geojson (in_geojson inp) = Ok ps →
     tbl = expression ls →
     pts = <["single_molecule" := single_molecule ls]> {[ "cells" := regions ls ]} →
     assemble inp s0 = (Err ConsistencyError, st) ∧
     to_zarr sd_write inp base s0 = (Err ConsistencyError, st) ∧
     fs st = fs s0 ∧ stdout st = stdout s0).
Proof.
  intros Ht Hinfo Hregion Hl Hr Hne.
  assert (∀ imgs trs polys,
            SpatialData_init tbl pts imgs trs polys st = (Err ConsistencyError, st)) as Hinit.
  { intros imgs' trs' polys'. unfold SpatialData_init, deref, raise, mbind, M_bind.
    rewrite Ht. unfold region_rows. rewrite Hinfo. cbn [mbind option_bind].
    rewrite Hregion. cbn [mbind option_bind]. rewrite Hl. cbn [mbind option_bind].
    rewrite Hr. cbn [mbind option_bind].
    by rewrite bool_decide_false. }
  split; [apply Hinit|].
  intros sd_write inp base s0 ls ps Hls Hps -> ->.
  assert (assemble inp s0 = (Err ConsistencyError, st)) as Has.
  { unfold assemble. rewrite (bind_Ok _ _ _ _ _ Hls). unfold build_dataset.
    erewrite bind_Ok; [|unfold lift; by rewrite Hps].
    destruct s0 as [h0 f0 o0].
    apply build_layers_Ok in Hls
      as (h' & sp & rr & x & ct & tx & ty & sx & sy & -> & _ & _ & _ & _ & _ &
          _ & _ & _ & _ & Htr & Hsc & _).
    erewrite bind_Ok;
      [|unfold image_transform, lift;
        by rewrite Htr, Hsc, to_affine_scale_translation].
    apply Hinit. }
  split; [done|]. split; [by apply to_zarr_aborts|].
  destruct (keeps_files_assemble inp s0) as [Hfs Hout].
  by rewrite Has in Hfs, Hout.
Qed.

Lemma C7_row_count_mismatch_witness :
  SpatialData_init 0%nat {[ "cells" := 1%nat ]} ∅ ∅ ∅ example_mismatch
  = (Err ConsistencyError, example_mismatch).
Proof.
  apply (C7_row_count_mismatch 0%nat {[ "cells" := 1%nat ]} ∅ ∅ ∅ example_mismatch
           (expression_of example_cells) mapping_info "cells" 1%nat
           (regions_of [num_row [0; 0]; num_row [1; 1]]%Z [num_row [2]; num_row [4]]%Z)).
  - vm_compute. reflexivity.
  - vm_compute. reflexivity.
  - vm_compute. reflexivity.
  - vm_compute. reflexivity.
  - vm_compute. reflexivity.
  - vm_compute. lia.
Defined.

(** * Further properties of the script *)

(** ** The persisting step in every case *)

Lemma persist_cases sd_write sdata (p : path) st :
  persist sd_write sdata p st =
    match fs st !! p with
    | None => write sd_write sdata p st
    | Some Dir =>
        write sd_write sdata p (mkState (heap st) (remove_tree p (fs st)) (stdout st))
    | Some (File _) => (Err NotADirectoryError, st)
    end.
Proof.
  unfold persist, path_exists, rmtree, mbind, M_bind.
  destruct (fs st !! p) as [[|c]|] eqn:Hp.
  - rewrite bool_decide_true by eauto. by rewrite Hp.
  - rewrite bool_decide_true by eauto. by rewrite Hp.
  - rewrite bool_decide_false by (by intros [??]). done.
Qed.

(** X7: lines 74-76, by what is at the destination.  Nothing there: the writer
    runs on the file system as it is.  A directory: the writer runs once
    the tree is removed.  A regular file: [shutil.rmtree] raises
    [NotADirectoryError], the writer does not run and nothing changes.
    The guard of line 74 keeps [shutil.rmtree] from raising
    [FileNotFoundError]: that exception can only come from the writer. *)
Theorem persist_by_destination
    (sd_write : SpatialData → gmap loc AnnData → path → gmap path node →
                result unit * gmap path node)
    (sdata : SpatialData) (p : path) (st : state) :
  persist sd_write sdata p st =
    match fs st !! p with
    | None => write sd_write sdata p st
    | Some Dir =>
        write sd_write sdata p (mkState (heap st) (remove_tree p (fs st)) (stdout st))
    | Some (File _) => (Err NotADirectoryError, st)
    end ∧
  (∀ s', persist sd_write sdata p st = (Err FileNotFoundError, s') →
     ∃ f, (sd_write sdata (heap st) p f).1 = Err FileNotFoundError).
Proof.
  split; [apply persist_cases|].
  intros s'. rewrite persist_cases. unfold write.
  destruct (fs st !! p) as [[|c]|]; cbn [heap fs stdout].
  - destruct (sd_write sdata (heap st) p (remove_tree p (fs st))) as [r f] eqn:Hw.
    intros [= -> _]. exists (remove_tree p (fs st)). by rewrite Hw.
  - done.
  - destruct (sd_write sdata (heap st) p (fs st)) as [r f] eqn:Hw.
    intros [= -> _]. exists (fs st). by rewrite Hw.
Qed.

(** ** The run as a whole *)

Lemma to_zarr_unfold sd_write inp base st :
  to_zarr sd_write inp base st =
    match assemble inp st with
    | (Err e, s1) => (Err e, s1)
    | (Ok sdata, s1) =>
        match persist sd_write sdata (path_write base)
                (mkState (heap s1) (fs s1) (stdout s1 ++ [OutDataset sdata])) with
        | (Err e, s2) => (Err e, s2)
        | (Ok _, s2) =>
            (Ok tt, mkState (heap s2) (fs s2)
                      (stdout s2 ++ [OutText "done"; OutText view_notice]))
        end
    end.
Proof.
  unfold to_zarr, print, mbind, M_bind.
  destruct (assemble inp st) as [[sdata|e] s1]; [|done].
  cbn [heap fs stdout]. unfold path_write.
  destruct (persist sd_write sdata (base ++ ["data.zarr"]) _) as [[[]|e] s2]; [|done].
  cbn [heap fs stdout]. by rewrite <- app_assoc.
Qed.

Lemma persist_keeps sd_write sdata p st :
  heap (persist sd_write sdata p st).2 = heap st ∧
  stdout (persist sd_write sdata p st).2 = stdout st.
Proof.
  rewrite persist_cases. unfold write.
  destruct (fs st !! p) as [[|c]|]; cbn [heap fs stdout]; [|done|].
  - by destruct (sd_write sdata (heap st) p (remove_tree p (fs st))).
  - by destruct (sd_write sdata (heap st) p (fs st)).
Qed.

(** X8: what a run prints.  Nothing when the dataset is not assembled; the
    summary of the dataset alone when it is assembled and the persisting
    step raises; the summary and the two closing lines, in this order, when
    the run returns.  So the line done is printed exactly when the run
    ends without an exception. *)
Theorem to_zarr_output
    (sd_write : SpatialData → gmap loc AnnData → path → gmap path node →
                result unit * gmap path node)
    (inp : inputs) (base : path) (st : state) :
  ∃ outs,
    stdout (to_zarr sd_write inp base st).2 = stdout st ++ outs ∧
    match (to_zarr sd_write inp base st).1 with
    | Ok _ =>
        ∃ sdata s1, assemble inp st = (Ok sdata, s1) ∧
          outs = [OutDataset sdata; OutText "done"; OutText view_notice]
    | Err e =>
        (∃ s1, assemble inp st = (Err e, s1) ∧ outs = []) ∨
        (∃ sdata s1, assemble inp st = (Ok sdata, s1) ∧ outs = [OutDataset sdata])
    end.
Proof.
  rewrite to_zarr_unfold.
  destruct (keeps_files_assemble inp st) as [_ Hout].
  destruct (assemble inp st) as [[sdata|e] s1]; cbn [fst snd] in *.
  - set (s2 := mkState (heap s1) (fs s1) (stdout s1 ++ [OutDataset sdata])).
    destruct (persist_keeps sd_write sdata (path_write base) s2) as [_ Hout2].
    destruct (persist sd_write sdata (path_write base) s2) as [[[]|e] s3];
      cbn [fst snd stdout] in *.
    + exists [OutDataset sdata; OutText "done"; OutText view_notice].
      split; [|eauto]. rewrite Hout2. subst s2. cbn [stdout].
      rewrite Hout, <- app_assoc. done.
    + exists [OutDataset sdata]. split; [|eauto].
      rewrite Hout2. subst s2. cbn [stdout]. by rewrite Hout.
  - exists []. rewrite app_nil_r. eauto.
Qed.

(** ** What a run leaves alone *)

Lemma path_read_not_under_path_write (base q : path) :
  path_read base `prefix_of` q → ¬ path_write base `prefix_of` q.
Proof.
  unfold path_read, path_write. intros [k1 ->] [k2 Hk].
  rewrite <- !app_assoc in Hk. apply app_inv_head in Hk. discriminate Hk.
Qed.

Lemma persist_outside sd_write sdata (p : path) st (q : path) :
  writes_under sd_write → ¬ p `prefix_of` q →
  fs (persist sd_write sdata p st).2 !! q = fs st !! q.
Proof.
  intros Hw Hq. rewrite persist_cases.
  unfold write. destruct (fs st !! p) as [[|c]|]; cbn [heap fs stdout]; [|done|].
  - specialize (Hw sdata (heap st) p (remove_tree p (fs st)) q Hq).
    destruct (sd_write sdata (heap st) p (remove_tree p (fs st))) as [r f].
    cbn [snd fs] in *. by rewrite Hw, remove_tree_outside.
  - specialize (Hw sdata (heap st) p (fs st) q Hq).
    by destruct (sd_write sdata (heap st) p (fs st)) as [r f].
Qed.

(** X9: with a writer that writes only under its destination, a run changes
    nothing outside [data.zarr], whether it returns or raises; the input
    directory [data/processed] lies outside, so the removal of an earlier
    store never takes the input files with it. *)
Theorem to_zarr_outside_destination
    (sd_write : SpatialData → gmap loc AnnData → path → gmap path node →
                result unit * gmap path node)
    (inp : inputs) (base : path) (st : state) :
  writes_under sd_write →
  (∀ q : path, ¬ path_write base `prefix_of` q →
     fs (to_zarr sd_write inp base st).2 !! q = fs st !! q) ∧
  (∀ q : path, path_read base `prefix_of` q →
     fs (to_zarr sd_write inp base st).2 !! q = fs st !! q).
Proof.
  intros Hw.
  assert (∀ q : path, ¬ path_write base `prefix_of` q →
            fs (to_zarr sd_write inp base st).2 !! q = fs st !! q) as Hout.
  { intros q Hq. rewrite to_zarr_unfold.
    destruct (keeps_files_assemble inp st) as [Hfs _].
    destruct (assemble inp st) as [[sdata|e] s1]; cbn [fst snd] in *;
      [|by rewrite Hfs].
    set (s2 := mkState (heap s1) (fs s1) (stdout s1 ++ [OutDataset sdata])).
    pose proof (persist_outside sd_write sdata (path_write base) s2 q Hw Hq) as Hp.
    destruct (persist sd_write sdata (path_write base) s2) as [[[]|e] s3];
      cbn [fst snd fs] in *; rewrite Hp; subst s2; cbn [fs]; by rewrite Hfs. }
  split; [exact Hout|].
  intros q Hq. apply Hout. by apply path_read_not_under_path_write.
Qed.

Lemma write_store_under : writes_under write_store.
Proof.
  intros sdata h p f q Hq. unfold write_store. cbn [snd].
  apply lookup_union_r, not_elem_of_list_to_map_1.
  intros Hin. apply Hq. apply list_elem_of_fmap in Hin as ([q' n] & -> & Hin).
  cbn [fst].
  repeat (apply elem_of_app in Hin as [Hin|Hin] || apply elem_of_cons in Hin as [Hin|Hin]);
    try (apply list_elem_of_fmap in Hin as (name & Hin & _));
    try (injection Hin as -> ->);
    try (by apply elem_of_nil in Hin);
    first [reflexivity | by apply prefix_app_r].
Qed.

Lemma to_zarr_outside_destination_witness :
  let st := mkState ∅ example_files [] in
  fs (to_zarr write_store example_inputs ["merfish"] st).2
    !! ["merfish"; "data"; "processed"; "cells.h5ad"]
  = fs st !! ["merfish"; "data"; "processed"; "cells.h5ad"].
Proof.
  intros st.
  apply (proj2 (to_zarr_outside_destination write_store example_inputs ["merfish"] st
                  write_store_under)).
  exists ["cells.h5ad"]. reflexivity.
Defined.

Lemma insert_fresh_subseteq (h : gmap loc AnnData) a : h ⊆ <[fresh (dom h) := a]> h.
Proof. apply insert_subseteq, fresh_heap. Qed.

Lemma make_single_molecule_grows adata a h f o :
  h !! adata = Some a →
  ∃ h', (make_single_molecule adata (mkState h f o)).2 = mkState h' f o ∧ h ⊆ h'.
Proof.
  intros Ha. rewrite (make_single_molecule_run _ _ _ _ _ Ha). cbv zeta.
  destruct (X a); [|eauto using insert_fresh_subseteq].
  case_bool_decide; [|eauto using insert_fresh_subseteq].
  destruct (obsm a !! "cell_type"); [|eauto using insert_fresh_subseteq].
  case_bool_decide; eauto using insert_fresh_subseteq.
Qed.

Lemma make_expression_grows cells c h f o :
  h !! cells = Some c →
  ∃ h', (make_expression cells (mkState h f o)).2 = mkState h' f o ∧ h ⊆ h'.
Proof.
  intros Hc. rewrite (make_expression_run _ _ _ _ _ Hc). cbv zeta.
  destruct (obsm c !! "region_radius"), (obsm c !! "spatial");
    eauto using insert_fresh_subseteq.
Qed.

Lemma make_regions_grows cells c h f o :
  h !! cells = Some c →
  ∃ h', (make_regions cells (mkState h f o)).2 = mkState h' f o ∧ h ⊆ h'.
Proof.
  intros Hc. rewrite (make_regions_run _ _ _ _ _ Hc). cbv zeta.
  destruct (obsm c !! "spatial"); [|eauto].
  destruct (obsm c !! "region_radius"); [|eauto using insert_fresh_subseteq].
  case_bool_decide; eauto using insert_fresh_subseteq.
Qed.

Lemma image_vectors_state j s : (image_vectors j s).2 = s.
Proof.
  unfold image_vectors, json_get. unfold_ops.
  repeat (match goal with |- context [j !! ?k] => destruct (j !! k) end; [|done]).
  done.
Qed.

(** The store after the two tables are read (lines 23 and 25). *)
Lemma build_layers_grows inp h f o :
  let cells := fresh (dom h) in
  let h1 := <[cells := in_cells inp]> h in
  let adata := fresh (dom h1) in
  let h2 := <[adata := in_adata inp]> h1 in
  ∃ h', (build_layers inp (mkState h f o)).2 = mkState h' f o ∧ h2 ⊆ h'.
Proof.
  intros cells h1 adata h2.
  unfold build_layers, read_h5ad, new_object, mbind, M_bind. cbn [heap fs stdout].
  fold cells. fold h1. fold adata. fold h2.
  assert (h1 ⊆ h2) as H12 by apply insert_fresh_subseteq.
  assert (h1 !! cells = Some (in_cells inp)) as Hc1 by apply lookup_insert_eq.
  assert (h2 !! adata = Some (in_adata inp)) as Ha2 by apply lookup_insert_eq.
  destruct (make_single_molecule_grows _ _ _ f o Ha2) as (h3 & Hs3 & H23).
  destruct (make_single_molecule adata (mkState h2 f o)) as [[m|e] s3];
    cbn [snd] in Hs3; subst s3; [|by exists h3].
  pose proof (image_vectors_state (in_j inp) (mkState h3 f o)) as Hs4.
  destruct (image_vectors (in_j inp) (mkState h3 f o)) as [[v|e] s4];
    cbn [snd] in Hs4; subst s4; [|by exists h3].
  assert (h3 !! cells = Some (in_cells inp)) as Hc3.
  { eapply lookup_weaken; [|exact H23]. eapply lookup_weaken; [exact Hc1|exact H12]. }
  destruct (make_expression_grows _ _ _ f o Hc3) as (h4 & Hs5 & H34).
  destruct (make_expression cells (mkState h3 f o)) as [[ex|e] s5];
    cbn [snd] in Hs5; subst s5; [|exists h4; split; [done|by etrans]].
  assert (h4 !! cells = Some (in_cells inp)) as Hc4
    by (eapply lookup_weaken; [exact Hc3|exact H34]).
  destruct (make_regions_grows _ _ _ f o Hc4) as (h5 & Hs6 & H45).
  destruct (make_regions cells (mkState h4 f o)) as [[r|e] s6];
    cbn [snd] in Hs6; subst s6; exists h5; (split; [done|]);
    by etrans; [|etrans].
Qed.

Lemma build_dataset_state inp ls s : (build_dataset inp ls s).2 = s.
Proof.
  unfold build_dataset, image_transform, SpatialData_init. unfold_ops.
  destruct (anndata_from_geojson (in_geojson inp)); [|done].
  destruct (to_affine _); [|done].
  destruct (heap s !! expression ls); [|done].
  destruct (region_rows _ _ _); [|done].
  repeat case_bool_decide; done.
Qed.

(** X10: a run never changes or removes an object of the store, whether it
    returns or raises: every mutation of the script goes to an object the
    script itself created.  This holds for the objects that were there
    before the run and for the two tables the run reads at its start, which
    keep the content read from disk to the end. *)
Theorem to_zarr_keeps_objects
    (sd_write : SpatialData → gmap loc AnnData → path → gmap path node →
                result unit * gmap path node)
    (inp : inputs) (base : path) (st : state) :
  let cells := fresh (dom (heap st)) in
  let adata := fresh (dom (<[cells := in_cells inp]> (heap st))) in
  let st' := (to_zarr sd_write inp base st).2 in
  (∀ l a, heap st !! l = Some a → heap st' !! l = Some a) ∧
  heap st !! cells = None ∧
  heap st' !! cells = Some (in_cells inp) ∧
  cells ≠ adata ∧
  heap st' !! adata = Some (in_adata inp).
Proof.
  intros cells adata st'.
  set (h1 := <[cells := in_cells inp]> (heap st)).
  set (h2 := <[adata := in_adata inp]> h1).
  assert (h2 ⊆ heap st') as Hsub.
  { subst st'. rewrite to_zarr_unfold. unfold assemble, mbind, M_bind.
    destruct st as [h f o]. cbn [heap] in *.
    destruct (build_layers_grows inp h f o) as (h' & Hs1 & Hsub).
    fold cells in Hsub. fold h1 in Hsub. fold adata in Hsub. fold h2 in Hsub.
    destruct (build_layers inp (mkState h f o)) as [[ls|e] s1];
      cbn [snd] in Hs1; subst s1; [|done].
    pose proof (build_dataset_state inp ls (mkState h' f o)) as Hs2.
    destruct (build_dataset inp ls (mkState h' f o)) as [[sdata|e] s2];
      cbn [snd] in Hs2; subst s2; [|done].
    cbn [heap fs stdout].
    set (s3 := mkState h' f (o ++ [OutDataset sdata])).
    destruct (persist_keeps sd_write sdata (path_write base) s3) as [Hh _].
    destruct (persist sd_write sdata (path_write base) s3) as [[[]|e] s4];
      cbn [snd heap] in *; by rewrite Hh. }
  assert (h1 !! cells = Some (in_cells inp)) as Hc1 by apply lookup_insert_eq.
  assert (h2 !! adata = Some (in_adata inp)) as Ha2 by apply lookup_insert_eq.
  assert (h2 !! cells = Some (in_cells inp)) as Hc2 by (by apply lookup_insert_fresh).
  split; [|split; [apply fresh_heap|split; [by eapply lookup_weaken|split]]].
  - intros l a Hl. eapply lookup_weaken; [|exact Hsub].
    do 2 apply lookup_insert_fresh. done.
  - intros E. assert (h1 !! adata = None) as Hf by apply fresh_heap.
    rewrite <- E in Hf. congruence.
  - by eapply lookup_weaken.
Qed.

(** ** When the layers can be built *)

Lemma build_layers_Ok_ready inp h f o ls st' :
  build_layers inp (mkState h f o) = (Ok ls, st') → layers_ready inp.
Proof.
  intros H. unfold build_layers in H.
  apply bind_Ok_inv in H as (cells & s1 & Hcells & H).
  apply bind_Ok_inv in H as (adata & s2 & Hadata & H).
  apply bind_Ok_inv in H as (m & s3 & Hm & H).
  apply bind_Ok_inv in H as (v & s4 & Hv & H).
  apply bind_Ok_inv in H as (e & s5 & He & H).
  apply bind_Ok_inv in H as (r & s6 & Hr & H).
  unfold read_h5ad, new_object in Hcells, Hadata. cbn [heap fs stdout] in *.
  injection Hcells as <- <-. cbn [heap fs stdout] in *. injection Hadata as <- <-.
  set (h1 := <[fresh (dom h) := in_cells inp]> h) in *.
  set (h2 := <[fresh (dom h1) := in_adata inp]> h1) in *.
  assert (h1 !! fresh (dom h) = Some (in_cells inp)) as Hc1 by apply lookup_insert_eq.
  assert (h2 !! fresh (dom h1) = Some (in_adata inp)) as Ha2 by apply lookup_insert_eq.
  assert (h2 !! fresh (dom h) = Some (in_cells inp)) as Hc2
    by (by apply lookup_insert_fresh).
  apply (make_single_molecule_Ok _ _ _ _ _ _ _ Ha2) in Hm
    as (x & ct & Hx & Hct & Hlx & Hlct & -> & ->).
  apply image_vectors_Ok in Hv as (tx & ty & sx & sy & Htx & Hty & Hsx & Hsy & -> & ->).
  assert (<[fresh (dom h2) := single_molecule_of (in_adata inp) x ct]> h2
            !! fresh (dom h) = Some (in_cells inp)) as Hc3
    by (by apply lookup_insert_fresh).
  apply (make_expression_Ok _ _ _ _ _ _ _ Hc3) in He as (-> & -> & _ & _).
  eapply lookup_insert_fresh in Hc3.
  apply (make_regions_Ok _ _ _ _ _ _ _ Hc3) in Hr as (sp & rr & Hsp & Hrr & Hlen & _).
  exists x, ct, sp, rr, tx, ty, sx, sy. done.
Qed.

Lemma build_layers_ready_Ok inp h f o :
  layers_ready inp → ∃ ls st', build_layers inp (mkState h f o) = (Ok ls, st').
Proof.
  intros (x & ct & sp & rr & tx & ty & sx & sy &
          Hx & Hlx & Hct & Hlct & Htx & Hty & Hsx & Hsy & Hsp & Hrr & Hlen).
  unfold build_layers, read_h5ad, new_object, mbind, M_bind. cbn [heap fs stdout].
  set (h1 := <[fresh (dom h) := in_cells inp]> h).
  set (h2 := <[fresh (dom h1) := in_adata inp]> h1).
  assert (h1 !! fresh (dom h) = Some (in_cells inp)) as Hc1 by apply lookup_insert_eq.
  assert (h2 !! fresh (dom h1) = Some (in_adata inp)) as Ha2 by apply lookup_insert_eq.
  assert (h2 !! fresh (dom h) = Some (in_cells inp)) as Hc2
    by (by apply lookup_insert_fresh).
  rewrite (make_single_molecule_run _ _ _ _ _ Ha2), Hx. cbv zeta.
  rewrite bool_decide_true, Hct, bool_decide_true by done. cbv beta iota.
  unfold image_vectors, json_get. unfold_ops. rewrite Htx, Hty, Hsx, Hsy.
  cbv beta iota.
  set (h3 := <[fresh (dom h2) := single_molecule_of (in_adata inp) x ct]> h2).
  assert (h3 !! fresh (dom h) = Some (in_cells inp)) as Hc3
    by (by apply lookup_insert_fresh).
  rewrite (make_expression_run _ _ _ _ _ Hc3), Hrr, Hsp. cbv beta iota zeta.
  set (h4 := <[fresh (dom h3) := expression_of (in_cells inp)]> h3).
  assert (h4 !! fresh (dom h) = Some (in_cells inp)) as Hc4
    by (by apply lookup_insert_fresh).
  rewrite (make_regions_run _ _ _ _ _ Hc4), Hsp, Hrr. cbv beta iota zeta.
  rewrite bool_decide_true by done. eauto.
Qed.

(** X1: lines 23-44 succeed exactly when the molecule table has an [X] and a
    [cell_type] array with one row per molecule, the alignment record has
    its four fields, and the cell table has a [spatial] and a
    [region_radius] array of equal row counts.  Nothing else is checked: in
    particular the row count of [spatial] is not compared with the row
    count of the cell table. *)
Theorem build_layers_succeeds_iff (inp : inputs) (st : state) :
  (∃ ls st', build_layers inp st = (Ok ls, st')) ↔ layers_ready inp.
Proof.
  destruct st as [h f o]. split.
  - intros (ls & st' & H). by eapply build_layers_Ok_ready.
  - apply build_layers_ready_Ok.
Qed.

(** X11: when the inputs do not have what lines 23-44 need, the run ends with
    the exception of the first failing statement before the dataset is
    built: nothing is printed and the file system is as it was, so an
    earlier store at the destination is not removed. *)
Theorem to_zarr_stops_before_deleting
    (sd_write : SpatialData → gmap loc AnnData → path → gmap path node →
                result unit * gmap path node)
    (inp : inputs) (base : path) (st : state) :
  ¬ layers_ready inp →
  ∃ e st',
    build_layers inp st = (Err e, st') ∧
    to_zarr sd_write inp base st = (Err e, st') ∧
    fs st' = fs st ∧ stdout st' = stdout st.
Proof.
  intros Hnot. destruct st as [h f o].
  destruct (keeps_files_build_layers inp (mkState h f o)) as [Hfs Hout].
  destruct (build_layers inp (mkState h f o)) as [[ls|e] st'] eqn:Hls.
  - exfalso. apply Hnot. by eapply build_layers_Ok_ready.
  - exists e, st'. repeat split; try done.
    apply to_zarr_aborts. unfold assemble. by apply bind_Err.
Qed.

Lemma to_zarr_stops_before_deleting_witness :
  let st := mkState ∅ example_files [] in
  ∃ e st',
    to_zarr write_store example_unready_inputs ["merfish"] st = (Err e, st') ∧
    fs st' = example_files.
Proof.
  intros st.
  destruct (to_zarr_stops_before_deleting write_store example_unready_inputs ["merfish"] st)
    as (e & st' & _ & Hrun & Hfs & _).
  - intros (x & ct & sp & rr & tx & ty & sx & sy & _ & _ & _ & _ & _ & _ & _ & _ & Hsp & _).
    vm_compute in Hsp. discriminate Hsp.
  - exists e, st'. auto.
Defined.

(** ** How the blocks fail *)

(** X3: lines 34-36 on a table without its spatial arrays: the first missing
    key, [region_radius] before [spatial], is reported as a [KeyError];
    nothing else can go wrong, and the table is left as it was (the
    deletions were made on the copy). *)
Theorem make_expression_failure cells c st e st' :
  heap st !! cells = Some c →
  make_expression cells st = (Err e, st') →
  ((e = KeyError "region_radius" ∧ obsm c !! "region_radius" = None) ∨
   (e = KeyError "spatial" ∧ is_Some (obsm c !! "region_radius") ∧
    obsm c !! "spatial" = None)) ∧
  heap st' !! cells = Some c ∧
  fs st' = fs st ∧ stdout st' = stdout st.
Proof.
  intros Hc. destruct st as [h f o]. cbn [heap fs stdout] in *.
  rewrite (make_expression_run _ _ _ _ _ Hc). cbv zeta.
  destruct (obsm c !! "region_radius") as [rr|] eqn:Hrr;
    [destruct (obsm c !! "spatial") as [sp|] eqn:Hsp|]; intros [= <- <-];
    cbn [heap fs stdout]; (split; [eauto|]);
    (split; [by apply lookup_insert_fresh|done]).
Qed.

Lemma make_expression_failure_witness :
  ∃ st', make_expression 1%nat example_state = (Err (KeyError "region_radius"), st') ∧
    heap st' !! 1%nat = Some example_adata.
Proof.
  destruct (make_expression 1%nat example_state) as [[l|e] st'] eqn:H.
  - vm_compute in H. discriminate H.
  - destruct (make_expression_failure 1%nat example_adata example_state e st')
      as ([[-> _]|[_ [[rr Hrr] _]]] & Hc & _).
    + vm_compute. reflexivity.
    + exact H.
    + exists st'. auto.
    + vm_compute in Hrr. discriminate Hrr.
Defined.

(** X4: lines 41-43: the region layer can fail in three ways only.  Without
    [spatial] nothing is created and the state is unchanged; without
    [region_radius] the [KeyError] comes after the empty layer exists;
    a [ValueError] means the two arrays have different row counts, which
    a well-formed table excludes. *)
Theorem make_regions_failure cells c st e st' :
  heap st !! cells = Some c →
  make_regions cells st = (Err e, st') →
  ((e = KeyError "spatial" ∧ obsm c !! "spatial" = None ∧ st' = st) ∨
   (e = KeyError "region_radius" ∧ is_Some (obsm c !! "spatial") ∧
    obsm c !! "region_radius" = None) ∨
   (e = ValueError ∧ ¬ wf_AnnData c ∧
    ∃ sp rr, obsm c !! "spatial" = Some sp ∧ obsm c !! "region_radius" = Some rr ∧
             length rr ≠ length sp)) ∧
  heap st' !! cells = Some c.
Proof.
  intros Hc. destruct st as [h f o]. cbn [heap fs stdout] in *.
  rewrite (make_regions_run _ _ _ _ _ Hc). cbv zeta.
  destruct (obsm c !! "spatial") as [sp|] eqn:Hsp.
  - destruct (obsm c !! "region_radius") as [rr|] eqn:Hrr.
    + case_bool_decide as Hlen; intros [= <- <-]. cbn [heap]. split.
      * right. right. split; [done|]. split; [|eauto].
        intros Hwf. apply Hlen.
        by rewrite (wf_obsm _ _ _ Hwf Hsp), (wf_obsm _ _ _ Hwf Hrr).
      * by apply lookup_insert_fresh.
    + intros [= <- <-]. cbn [heap]. split; [eauto 10|by apply lookup_insert_fresh].
  - intros [= <- <-]. cbn [heap]. split; [eauto|done].
Qed.

Lemma make_regions_failure_witness :
  make_regions 1%nat example_state = (Err (KeyError "spatial"), example_state).
Proof.
  destruct (make_regions 1%nat example_state) as [[l|e] st'] eqn:H.
  - vm_compute in H. discriminate H.
  - destruct (make_regions_failure 1%nat example_adata example_state e st')
      as ([(-> & _ & ->)|[(_ & [sp Hsp] & _)|(_ & _ & sp & rr & Hsp & _)]] & _).
    + vm_compute. reflexivity.
    + exact H.
    + reflexivity.
    + vm_compute in Hsp. discriminate Hsp.
    + vm_compute in Hsp. discriminate Hsp.
Defined.

(** X5: lines 26-28: the molecule layer fails with an [AttributeError] when
    the table read has no [X], with a [KeyError] when it has no
    [cell_type] array, and with a [ValueError] only for a table that is not
    well-formed; the table read is left as it was. *)
Theorem make_single_molecule_failure adata a st e st' :
  heap st !! adata = Some a →
  make_single_molecule adata st = (Err e, st') →
  ((e = AttributeError ∧ X a = None) ∨
   (e = KeyError "cell_type" ∧ is_Some (X a) ∧ obsm a !! "cell_type" = None) ∨
   (e = ValueError ∧ ¬ wf_AnnData a)) ∧
  heap st' !! adata = Some a ∧
  fs st' = fs st ∧ stdout st' = stdout st.
Proof.
  intros Ha. destruct st as [h f o]. cbn [heap fs stdout] in *.
  rewrite (make_single_molecule_run _ _ _ _ _ Ha). cbv zeta.
  destruct (X a) as [x|] eqn:Hx.
  - case_bool_decide as Hlx.
    + destruct (obsm a !! "cell_type") as [ct|] eqn:Hct.
      * case_bool_decide as Hlct; intros [= <- <-]. cbn [heap fs stdout].
        split; [|split; [by apply lookup_insert_fresh|done]].
        right. right. split; [done|]. intros Hwf. apply Hlct.
        by apply (wf_obsm _ _ _ Hwf Hct).
      * intros [= <- <-]. cbn [heap fs stdout].
        split; [eauto 10|split; [by apply lookup_insert_fresh|done]].
    + intros [= <- <-]. cbn [heap fs stdout].
      split; [|split; [by apply lookup_insert_fresh|done]].
      right. right. split; [done|]. intros Hwf. apply Hlx.
      by apply (wf_X _ _ Hwf Hx).
  - intros [= <- <-]. cbn [heap fs stdout].
    split; [eauto|split; [by apply lookup_insert_fresh|done]].
Qed.

Lemma make_single_molecule_failure_witness :
  ∃ st', make_single_molecule 0%nat example_state = (Err (KeyError "cell_type"), st') ∧
    heap st' !! 0%nat = Some example_cells.
Proof.
  destruct (make_single_molecule 0%nat example_state) as [[l|e] st'] eqn:H.
  - vm_compute in H. discriminate H.
  - destruct (make_single_molecule_failure 0%nat example_cells example_state e st')
      as ([[_ Hx]|[(-> & _ & _)|[_ Hwf]]] & Hc & _).
    + vm_compute. reflexivity.
    + exact H.
    + vm_compute in Hx. discriminate Hx.
    + exists st'. auto.
    + exfalso. apply Hwf.
      refine (bool_decide_unpack (wf_AnnData example_cells) _). vm_compute. exact I.
Defined.

(** X6: lines 30-32: only the four fields of the alignment record are read,
    so records that agree on them give the same vectors; a missing field is
    reported as a [KeyError] naming the first missing one in the order
    translation x, translation y, scale x, scale y; and with all four
    present the translation is (x, y) and the scale is (x, y), the fields
    not being swapped. *)
Theorem image_vectors_outcome (j : gmap string Qc) (s : state) :
  (∀ j' : gmap string Qc,
     (∀ k, k ∈ alignment_keys → j !! k = j' !! k) →
     image_vectors j s = image_vectors j' s) ∧
  (∀ e s', image_vectors j s = (Err e, s') →
     s' = s ∧
     ∃ before k after,
       alignment_keys = before ++ k :: after ∧ e = KeyError k ∧
       j !! k = None ∧ Forall (λ k', is_Some (j !! k')) before) ∧
  (∀ v s', image_vectors j s = (Ok v, s') →
     s' = s ∧
     j !! "translation_x" = v.1 !! 0%nat ∧ j !! "translation_y" = v.1 !! 1%nat ∧
     j !! "scale_factor_x" = v.2 !! 0%nat ∧ j !! "scale_factor_y" = v.2 !! 1%nat ∧
     length v.1 = 2%nat ∧ length v.2 = 2%nat).
Proof.
  split; [|split].
  - intros j' Hagree. unfold image_vectors, json_get.
    rewrite <- !Hagree; [done|unfold alignment_keys; set_solver..].
  - unfold image_vectors, json_get. unfold_ops. intros e s'.
    destruct (j !! "translation_x") as [tx|] eqn:Htx;
      [|intros [= <- <-]; split; [done|]; exists [], "translation_x", ["translation_y"; "scale_factor_x"; "scale_factor_y"];
        by repeat split].
    destruct (j !! "translation_y") as [ty|] eqn:Hty;
      [|intros [= <- <-]; split; [done|];
        exists ["translation_x"], "translation_y", ["scale_factor_x"; "scale_factor_y"];
        repeat split; try done;
        repeat constructor; by rewrite Htx].
    destruct (j !! "scale_factor_x") as [sx|] eqn:Hsx;
      [|intros [= <- <-]; split; [done|];
        exists ["translation_x"; "translation_y"], "scale_factor_x", ["scale_factor_y"];
        repeat split; try done; repeat constructor; by rewrite ?Htx, ?Hty].
    destruct (j !! "scale_factor_y") as [sy|] eqn:Hsy;
      [done|intros [= <- <-]; split; [done|];
        exists ["translation_x"; "translation_y"; "scale_factor_x"], "scale_factor_y", [];
        repeat split; try done; repeat constructor; by rewrite ?Htx, ?Hty, ?Hsx].
  - intros v s' H.
    apply image_vectors_Ok in H as (tx & ty & sx & sy & -> & -> & -> & -> & -> & ->).
    done.
Qed.

(** ** The directory of the run *)

Lemma list_ascii_of_string_app (a b : string) :
  String.list_ascii_of_string (a +:+ b)
  = String.list_ascii_of_string a ++ String.list_ascii_of_string b.
Proof. induction a as [|ch a IH]; simpl; [done|]. by rewrite IH. Qed.

Lemma path_str_last (p : path) (c : string) :
  String.list_ascii_of_string c
    `suffix_of` String.list_ascii_of_string (path_str (p ++ [c])).
Proof.
  assert (path_str (p ++ [c]) = foldr (λ c acc, "/" +:+ c +:+ acc) "" (p ++ [c])) as ->
    by (by destruct p).
  induction p as [|d p IH]; cbn [app foldr].
  - rewrite !list_ascii_of_string_app. cbn [String.list_ascii_of_string].
    rewrite app_nil_r. by apply suffix_cons_r.
  - rewrite !list_ascii_of_string_app. by do 2 apply suffix_app_r.
Qed.

(** X12: lines 13-17.  The directory the script works in always has a name
    that ends with merfish: it is the working directory when that one
    qualifies (no matter what precedes the ending, and without looking at
    the file system), else its subdirectory merfish, which must exist.
    Resolving again from the directory found gives the same directory, so
    the script can be started from either place.  The assertion fails
    exactly when the working directory does not qualify and has no entry
    merfish. *)
Theorem resolve_path_merfish (cwd : path) (f : gmap path node) :
  (∀ p, resolve_path cwd f = Some p →
     endswith (path_str p) "merfish" = true ∧
     (p = cwd ∨ (p = cwd ++ ["merfish"] ∧ is_Some (f !! p))) ∧
     ∀ f', resolve_path p f' = Some p) ∧
  (endswith (path_str cwd) "merfish" = true → resolve_path cwd f = Some cwd) ∧
  (resolve_path cwd f = None ↔
     endswith (path_str cwd) "merfish" = false ∧ f !! (cwd ++ ["merfish"]) = None) ∧
  (∀ sd_write inp st r, fs st = f → main sd_write inp cwd st = Ran r →
     ∃ p, endswith (path_str p) "merfish" = true ∧ r = to_zarr sd_write inp p st).
Proof.
  assert (∀ p, resolve_path cwd f = Some p →
            endswith (path_str p) "merfish" = true ∧
            (p = cwd ∨ (p = cwd ++ ["merfish"] ∧ is_Some (f !! p)))) as Hres.
  { intros p. unfold resolve_path.
    destruct (endswith (path_str cwd) "merfish") eqn:Hcwd; cbn [negb].
    - intros [= <-]. auto.
    - case_bool_decide as Hex; [|done]. intros [= <-]. split; [|auto].
      unfold endswith. apply bool_decide_eq_true_2, path_str_last. }
  split; [|split; [|split]].
  - intros p Hp. destruct (Hres p Hp) as [Hend Hcase]. repeat split; try done.
    intros f'. unfold resolve_path. by rewrite Hend.
  - intros Hend. unfold resolve_path. by rewrite Hend.
  - unfold resolve_path.
    destruct (endswith (path_str cwd) "merfish"); cbn [negb]; [by split; [|intros []]|].
    case_bool_decide as Hex.
    + split; [done|]. intros [_ Hnone]. rewrite Hnone in Hex. by destruct Hex.
    + split; [|done]. intros _. split; [done|].
      by apply eq_None_not_Some.
  - intros sd_write inp st r Hf. unfold main. rewrite Hf.
    destruct (resolve_path cwd f) as [p|] eqn:Hp; [|done].
    intros [= <-]. exists p. split; [|done]. by apply Hres.
Qed.

(** ** Which exception a failing construction raises *)

(** X2: the outcome of lines 23-44 depends on the parsed inputs only, not on
    the objects or files already there: the first failing statement, in
    the order of the script, decides the exception, and when no statement
    fails the layers are built. *)
Theorem build_layers_first_failure (inp : inputs) (st : state) :
  match layers_error inp with
  | Some e => ∃ st', build_layers inp st = (Err e, st')
  | None => ∃ ls st', build_layers inp st = (Ok ls, st')
  end.
Proof.
  destruct st as [h f o]. unfold layers_error.
  unfold build_layers, read_h5ad, new_object, mbind, M_bind. cbn [heap fs stdout].
  set (h1 := <[fresh (dom h) := in_cells inp]> h).
  set (h2 := <[fresh (dom h1) := in_adata inp]> h1).
  assert (h1 !! fresh (dom h) = Some (in_cells inp)) as Hc1 by apply lookup_insert_eq.
  assert (h2 !! fresh (dom h1) = Some (in_adata inp)) as Ha2 by apply lookup_insert_eq.
  assert (h2 !! fresh (dom h) = Some (in_cells inp)) as Hc2
    by (by apply lookup_insert_fresh).
  rewrite (make_single_molecule_run _ _ _ _ _ Ha2). cbv zeta.
  destruct (X (in_adata inp)) as [x|]; [|eauto].
  case_bool_decide; cbn [negb]; [|eauto].
  destruct (obsm (in_adata inp) !! "cell_type") as [ct|]; [|eauto].
  case_bool_decide; cbn [negb]; [|eauto].
  cbv beta iota.
  unfold image_vectors, json_get. unfold_ops.
  destruct (in_j inp !! "translation_x") as [tx|]; [|eauto].
  destruct (in_j inp !! "translation_y") as [ty|]; [|eauto].
  destruct (in_j inp !! "scale_factor_x") as [sx|]; [|eauto].
  destruct (in_j inp !! "scale_factor_y") as [sy|]; [|eauto].
  cbv beta iota.
  set (h3 := <[fresh (dom h2) := single_molecule_of (in_adata inp) x ct]> h2).
  assert (h3 !! fresh (dom h) = Some (in_cells inp)) as Hc3
    by (by apply lookup_insert_fresh).
  rewrite (make_expression_run _ _ _ _ _ Hc3). cbv zeta.
  destruct (obsm (in_cells inp) !! "region_radius") as [rr|] eqn:Hrr; [|eauto].
  destruct (obsm (in_cells inp) !! "spatial") as [sp|] eqn:Hsp; [|eauto].
  cbv beta iota.
  set (h4 := <[fresh (dom h3) := expression_of (in_cells inp)]> h3).
  assert (h4 !! fresh (dom h) = Some (in_cells inp)) as Hc4
    by (by apply lookup_insert_fresh).
  rewrite (make_regions_run _ _ _ _ _ Hc4), Hsp, Hrr. cbv zeta.
  case_bool_decide; cbn [negb]; eauto.
Qed.
